(** * cloudhealth-sdk-go: the AWS Account resource client

    A shallow embedding of [aws_account.go] (package [cloudhealth]) and the
    properties of its five operations: the pagination loop of
    [GetAllAwsAccounts], the status-code dispatch of every operation, and
    the JSON shape of an account sent by [CreateAwsAccount] and
    [UpdateAwsAccount].

    Go values are modelled as follows.
    - [int] is a 64-bit two's complement integer: a [Z] with the wrap-around
      of [pageNo++] written out ([wrap64]).
    - [string] and [[]byte] are [String.string].
    - [error] is the inductive type [Error]; a [nil] error is [None].
    - a Go result [(x, err)] whose [x] is [nil] exactly when [err] is not is
      a sum [Error + X]; a pointer that may be [nil] although [err] is [nil]
      is an [option].
    - the network, [net/url], [net/http] and the JSON decoder are an
      interface ([Library]); the operations thread the state of the outside
      world and a log of the HTTP exchanges they performed. *)

From Stdlib Require Import ZArith List String Ascii Bool Lia DecimalString.
Import ListNotations.

Local Open Scope string_scope.
Local Open Scope Z_scope.

(* ================================================================== *)
(** ** Go integers and formatting *)

Definition min_int : Z := - 2 ^ 63.
Definition max_int : Z := 2 ^ 63 - 1.

(** The value of a 64-bit signed integer after an arithmetic operation
    whose mathematical result is [z]. *)
Definition wrap64 (z : Z) : Z := (z + 2 ^ 63) mod 2 ^ 64 - 2 ^ 63.

(** [strconv.Itoa], and the verb [%d] of [fmt]: decimal digits, with a
    leading minus sign for a negative number. *)
Definition itoa (z : Z) : string := NilZero.string_of_int (Z.to_int z).

(** [sub] occurs in [s]. *)
Definition contains (s sub : string) : Prop :=
  exists pre post : string, s = pre ++ sub ++ post.

(* ================================================================== *)
(** ** Errors *)

Inductive Error : Type :=
| ErrClientAuthenticationError
    (** Modelled from the spec: the package-level error value of the
        owning client (declared outside [aws_account.go]); the
        distinguished authentication error returned on 401. *)
| ErrAwsAccountNotFound
    (** [errors.New("AWS Account not found")] *)
| Errorf (msg : string)
    (** an error built by [fmt.Errorf], with its formatted message *)
| LibraryError (msg : string)
    (** an error of [net/url], [net/http], [ioutil] or [encoding/json] *).

(* ================================================================== *)
(** ** Data model *)

Record AwsAccountAuthentication : Type := {
  Protocol : string;
  AccessKey : string;
  SecreyKey : string;
  AssumeRoleArn : string;
  AssumeRoleExternalID : string
}.

Record AwsAccount : Type := {
  ID : Z;
  Name : string;
  Authentication : AwsAccountAuthentication
}.

Record AwsAccounts : Type := {
  Accounts : list AwsAccount
}.

(** HTTP status codes used by the dispatch ([net/http] constants). *)
Definition StatusOK : Z := 200.
Definition StatusCreated : Z := 201.
Definition StatusNoContent : Z := 204.
Definition StatusUnauthorized : Z := 401.
Definition StatusNotFound : Z := 404.
Definition StatusUnprocessableEntity : Z := 422.

(* ================================================================== *)
(** ** JSON encoding of an account

    [json.Marshal] walks the fields of a struct in declaration order and
    writes one member per field under the name of its [json] tag; a field
    tagged [omitempty] is skipped when it holds the empty value of its type
    (for a string: the empty string). *)

(** The values the encoder is about to write. [JString s] stands for the
    Go string [s], not yet encoded: its text in the output is the string
    literal the encoder writes for [s] (see [render]), in which the
    encoder escapes characters and replaces invalid UTF-8, so that two
    different Go strings can have the same literal. *)
Inductive JSON : Type :=
| JNull
| JNumber (n : Z)
| JString (s : string)
| JObject (members : list (string * JSON)).

(** A string field tagged [json:"key"]. *)
Definition always (key : string) (v : JSON) : list (string * JSON) :=
  [(key, v)].

(** A string field tagged [json:"key,omitempty"]. *)
Definition omitempty (key : string) (v : string) : list (string * JSON) :=
  match v with
  | EmptyString => []
  | _ => [(key, JString v)]
  end.

Definition marshal_AwsAccountAuthentication (a : AwsAccountAuthentication) : JSON :=
  JObject (always "protocol" (JString (Protocol a))
           ++ omitempty "access_key" (AccessKey a)
           ++ omitempty "secret_key" (SecreyKey a)
           ++ omitempty "assume_role_arn" (AssumeRoleArn a)
           ++ omitempty "assume_role_external_id" (AssumeRoleExternalID a)).

Definition marshal_AwsAccount (a : AwsAccount) : JSON :=
  JObject (always "id" (JNumber (ID a))
           ++ always "name" (JString (Name a))
           ++ always "authentication"
                (marshal_AwsAccountAuthentication (Authentication a))).

(** The names of the members of an object, in output order. *)
Definition keys (j : JSON) : list string :=
  match j with
  | JObject ms => map fst ms
  | _ => []
  end.

Section Render.

(** The JSON string literal of a Go string (quoting and escaping are
    the encoder's). *)
Variable quote : string -> string.

(** The compact text [json.Marshal] produces for a value. *)
Fixpoint render (j : JSON) : string :=
  match j with
  | JNull => "null"
  | JNumber n => itoa n
  | JString s => quote s
  | JObject ms =>
      let fix render_members (ms : list (string * JSON)) : string :=
        match ms with
        | [] => ""
        | [(k, v)] => quote k ++ ":" ++ render v
        | (k, v) :: rest =>
            quote k ++ ":" ++ render v ++ "," ++ render_members rest
        end
      in "{" ++ render_members ms ++ "}"
  end.

End Render.

(* ================================================================== *)
(** ** The libraries and the outside world *)

(** [http.Request], as far as the client sets it. *)
Record Request (U : Type) : Type := {
  Method : string;
  ReqURL : U;
  Header : list (string * string);
  Body : option string
}.

Arguments Method {U} _.
Arguments ReqURL {U} _.
Arguments Header {U} _.
Arguments Body {U} _.

(** [http.Response]: the status code, and what [ioutil.ReadAll(resp.Body)]
    gives (the bytes of the body, or the error of a failed read). *)
Record Response : Type := {
  StatusCode : Z;
  ReadAll : Error + string
}.

(** What the client calls and does not define: [net/url], the HTTP
    transport, and the JSON decoder for its two result types.

    [url_Parse] is [url.Parse]. [client_Do timeout req] is
    [(&http.Client{Timeout: timeout}).Do(req)]: it answers with a transport
    error or a response, and may change the world (the remote service).
    [json_Unmarshal_AwsAccounts body] is [json.Unmarshal(body, &p)] for
    [p = new(AwsAccounts)], a pointer to a pointer: it yields the decode
    error, or [p] after decoding, which is [nil] ([None]) for the JSON
    text [null]. *)
Class Library : Type := {
  URL : Type;
  Values : Type;
  World : Type;
  url_Parse : string -> Error + URL;
  ResolveReference : URL -> URL -> URL;
  URL_String : URL -> string;
  URL_Query : URL -> Values;
  Values_Set : Values -> string -> string -> Values;
  Values_Encode : Values -> string;
  set_RawQuery : URL -> string -> URL;
  client_Do : Z -> Request URL -> World -> (Error + Response) * World;
  json_Unmarshal_AwsAccounts : string -> Error + option AwsAccounts;
  json_Unmarshal_AwsAccount : string -> Error + option AwsAccount;
  json_quote : string -> string
}.

(** Modelled from the spec: the connection context of the owning client
    (its struct is declared outside [aws_account.go]): base URL, API key
    and timeout in seconds. *)
Record Client {L : Library} : Type := {
  ApiKey : string;
  EndpointURL : URL;
  Timeout : Z
}.

(** One HTTP round trip: the request sent and what came back. *)
Definition Exchange {L : Library} : Type :=
  (Request URL * (Error + Response))%type.

(** The state an operation runs in: the outside world, and the round trips
    performed so far, oldest first. *)
Record St {L : Library} : Type := {
  world : World;
  log : list Exchange
}.

(** How a Go function call ends: it returns, it panics (here always a
    [nil] pointer dereference), or the model ran out of loop iterations. *)
Inductive Res (A : Type) : Type :=
| Val (a : A)
| Panic
| Unfinished.

Arguments Val {A} a.
Arguments Panic {A}.
Arguments Unfinished {A}.

Definition M {L : Library} (A : Type) : Type := St -> Res A * St.

Definition ret {L : Library} {A : Type} (a : A) : M A :=
  fun st => (Val a, st).

Definition bind {L : Library} {A B : Type} (m : M A) (f : A -> M B) : M B :=
  fun st =>
    match m st with
    | (Val a, st') => f a st'
    | (Panic, st') => (Panic, st')
    | (Unfinished, st') => (Unfinished, st')
    end.

Definition panic {L : Library} {A : Type} : M A :=
  fun st => (Panic, st).

Definition unfinished {L : Library} {A : Type} : M A :=
  fun st => (Unfinished, st).

Declare Scope go_scope.
Delimit Scope go_scope with go.
Notation "x <- m ;; k" := (bind m (fun x => k))
  (at level 100, m at next level, right associativity) : go_scope.
Local Open Scope go_scope.

(* ================================================================== *)
(** ** The operations *)

Section Operations.

Context {L : Library}.

(** [client.Do(req)], recorded in the log. *)
Definition Do (timeout : Z) (req : Request URL) : M (Error + Response) :=
  fun st =>
    let '(r, w) := client_Do timeout req (world st) in
    (Val r, {| world := w; log := (log st ++ [(req, r)])%list |}).

(** [http.NewRequest(method, url, body)]: for the four constant methods
    used here it fails exactly when [url] does not parse, with the parse
    error. *)
Definition http_NewRequest (method url : string) (body : option string)
  : Error + Request URL :=
  match url_Parse url with
  | inl err => inl err
  | inr u => inr {| Method := method; ReqURL := u; Header := []; Body := body |}
  end.

(** [time.Second * time.Duration(s.Timeout)], in nanoseconds. *)
Definition client_Timeout (s : Client) : Z :=
  wrap64 (1000000000 * Timeout s).

(** Lines 44-47: [per_page] and [page] are set in the query of [req]
    (which is changed in place). *)
Definition set_page (req : Request URL) (page perPage : Z) : Request URL :=
  let q := URL_Query (ReqURL req) in
  let q := Values_Set q "per_page" (itoa perPage) in
  let q := Values_Set q "page" (itoa page) in
  {| Method := Method req;
     ReqURL := set_RawQuery (ReqURL req) (Values_Encode q);
     Header := Header req;
     Body := Body req |}.

(** Lines 50-73 of [getPaginatedAwsAccounts]: from what [client.Do]
    returned to the result of the function. *)
Definition page_result (r : Error + Response) : Error + option AwsAccounts :=
  match r with
  | inl err => inl err
  | inr resp =>
      match ReadAll resp with
      | inl err => inl err
      | inr responseBody =>
          if StatusCode resp =? StatusOK then
            match json_Unmarshal_AwsAccounts responseBody with
            | inl err => inl err
            | inr accountsPage => inr accountsPage
            end
          else if StatusCode resp =? StatusUnauthorized then
            inl ErrClientAuthenticationError
          else if StatusCode resp =? StatusNotFound then
            inl ErrAwsAccountNotFound
          else
            inl (Errorf ("Unknown Response from CloudHealth: `"
                         ++ itoa (StatusCode resp) ++ "`"))
      end
  end.

(** [getPaginatedAwsAccounts] retrieves one page of results. Beside its Go
    result it returns [req] as it left it. *)
Definition getPaginatedAwsAccounts (timeout : Z) (req : Request URL)
    (page perPage : Z) : M (Request URL * (Error + option AwsAccounts)) :=
  let req := set_page req page perPage in
  r <- Do timeout req ;;
  ret (req, page_result r).

(** The [for] statement of [GetAllAwsAccounts] (lines 93-100), entered with
    the current values of its variables; [fuel] bounds the number of
    iterations still allowed. The statements after the loop (lines
    101-104) test the [err] of [http.NewRequest], which is [nil] there. A
    fetch that returns a [nil] page with a [nil] error makes
    [accountsPage.Accounts] dereference [nil]. *)
Fixpoint pages (fuel : nat) (timeout : Z) (req : Request URL)
    (perPage pageNo pageLen : Z) (accounts : list AwsAccount)
  : M (Error + list AwsAccount) :=
  if pageLen =? perPage then
    match fuel with
    | O => unfinished
    | S fuel' =>
        r <- getPaginatedAwsAccounts timeout req pageNo perPage ;;
        match r with
        | (_, inl err) => ret (inl err)
        | (_, inr None) => panic
        | (req', inr (Some accountsPage)) =>
            pages fuel' timeout req' perPage (wrap64 (pageNo + 1))
              (Z.of_nat (List.length (Accounts accountsPage)))
              (accounts ++ Accounts accountsPage)%list
        end
    end
  else
    ret (inr accounts).

(** [GetAllAwsAccounts] gets all AWS Accounts. When [url.Parse] fails
    [relativeURL] is [nil] and [ResolveReference] dereferences it. *)
Definition GetAllAwsAccounts (fuel : nat) (s : Client) (perPage : Z)
  : M (Error + list AwsAccount) :=
  match url_Parse ("aws_accounts?api_key=" ++ ApiKey s) with
  | inl _ => panic
  | inr relativeURL =>
      let apiUrl := ResolveReference (EndpointURL s) relativeURL in
      match http_NewRequest "GET" (URL_String apiUrl) None with
      | inl err => ret (inl err)
      | inr req => pages fuel (client_Timeout s) req perPage 1 perPage []
      end
  end.

(** Lines 119-144 of [GetAwsAccount]: from what [client.Do] returned to
    the result of the function. [json.Unmarshal(responseBody, &account)]
    is given a pointer to the pointer [account = new(AwsAccount)], so the
    account returned may be [nil]. *)
Definition got_result (r : Error + Response) : Error + option AwsAccount :=
  match r with
  | inl err => inl err
  | inr resp =>
      match ReadAll resp with
      | inl err => inl err
      | inr responseBody =>
          if StatusCode resp =? StatusOK then
            match json_Unmarshal_AwsAccount responseBody with
            | inl err => inl err
            | inr account => inr account
            end
          else if StatusCode resp =? StatusUnauthorized then
            inl ErrClientAuthenticationError
          else if StatusCode resp =? StatusNotFound then
            inl ErrAwsAccountNotFound
          else
            inl (Errorf ("Unknown Response with CloudHealth: `"
                         ++ itoa (StatusCode resp) ++ "`"))
      end
  end.

(** [GetAwsAccount] gets the AWS Account with the specified id. When
    [url.Parse] fails [relativeURL] is [nil] and [ResolveReference]
    dereferences it; when [http.NewRequest] fails [req] is [nil] and
    [client.Do] dereferences it. *)
Definition GetAwsAccount (s : Client) (id : Z)
  : M (Error + option AwsAccount) :=
  match url_Parse ("aws_accounts/" ++ itoa id ++ "?api_key=" ++ ApiKey s) with
  | inl _ => panic
  | inr relativeURL =>
      let url := ResolveReference (EndpointURL s) relativeURL in
      match http_NewRequest "GET" (URL_String url) None with
      | inl _ => panic
      | inr req =>
          r <- Do (client_Timeout s) req ;;
          ret (got_result r)
      end
  end.

(** [req.Header.Add(key, value)]. *)
Definition Header_Add (req : Request URL) (key value : string) : Request URL :=
  {| Method := Method req;
     ReqURL := ReqURL req;
     Header := (Header req ++ [(key, value)])%list;
     Body := Body req |}.

(** Lines 162-187 of [CreateAwsAccount]. *)
Definition created_result (account : AwsAccount) (r : Error + Response)
  : Error + option AwsAccount :=
  match r with
  | inl err => inl err
  | inr resp =>
      match ReadAll resp with
      | inl err => inl err
      | inr responseBody =>
          if StatusCode resp =? StatusCreated then
            match json_Unmarshal_AwsAccount responseBody with
            | inl err => inl err
            | inr account => inr account
            end
          else if StatusCode resp =? StatusUnauthorized then
            inl ErrClientAuthenticationError
          else if StatusCode resp =? StatusUnprocessableEntity then
            inl (Errorf ("Bad Request. Please check if a AWS Account with this name `"
                         ++ Name account ++ "` already exists"))
          else
            inl (Errorf ("Unknown Response with CloudHealth: `"
                         ++ itoa (StatusCode resp) ++ "`"))
      end
  end.

(** [CreateAwsAccount] enables a new AWS Account. When [http.NewRequest]
    fails [req] is [nil] and [req.Header.Add] dereferences it. *)
Definition CreateAwsAccount (s : Client) (account : AwsAccount)
  : M (Error + option AwsAccount) :=
  let body := render json_quote (marshal_AwsAccount account) in
  match url_Parse ("aws_accounts?api_key=" ++ ApiKey s) with
  | inl _ => panic
  | inr relativeURL =>
      let url := ResolveReference (EndpointURL s) relativeURL in
      match http_NewRequest "POST" (URL_String url) (Some body) with
      | inl _ => panic
      | inr req =>
          let req := Header_Add req "Content-Type" "application/json" in
          r <- Do (client_Timeout s) req ;;
          ret (created_result account r)
      end
  end.

(** Lines 205-230 of [UpdateAwsAccount]. *)
Definition updated_result (account : AwsAccount) (r : Error + Response)
  : Error + option AwsAccount :=
  match r with
  | inl err => inl err
  | inr resp =>
      match ReadAll resp with
      | inl err => inl err
      | inr responseBody =>
          if StatusCode resp =? StatusOK then
            match json_Unmarshal_AwsAccount responseBody with
            | inl err => inl err
            | inr account => inr account
            end
          else if StatusCode resp =? StatusUnauthorized then
            inl ErrClientAuthenticationError
          else if StatusCode resp =? StatusUnprocessableEntity then
            inl (Errorf ("Bad Request. Please check if a AWS Account with this name `"
                         ++ Name account ++ "` already exists"))
          else
            inl (Errorf ("Unknown Response with CloudHealth: `"
                         ++ itoa (StatusCode resp) ++ "`"))
      end
  end.

(** [UpdateAwsAccount] updates an existing AWS Account. *)
Definition UpdateAwsAccount (s : Client) (account : AwsAccount)
  : M (Error + option AwsAccount) :=
  match url_Parse ("aws_accounts/" ++ itoa (ID account) ++ "?api_key=" ++ ApiKey s) with
  | inl _ => panic
  | inr relativeURL =>
      let url := ResolveReference (EndpointURL s) relativeURL in
      let body := render json_quote (marshal_AwsAccount account) in
      match http_NewRequest "PUT" (URL_String url) (Some body) with
      | inl _ => panic
      | inr req =>
          let req := Header_Add req "Content-Type" "application/json" in
          r <- Do (client_Timeout s) req ;;
          ret (updated_result account r)
      end
  end.

(** Lines 245-261 of [DeleteAwsAccount]: the only result is the error
    ([None] for [nil]); the body of the response is never read. *)
Definition deleted_result (r : Error + Response) : option Error :=
  match r with
  | inl err => Some err
  | inr resp =>
      if StatusCode resp =? StatusOK then
        None
      else if StatusCode resp =? StatusNoContent then
        None
      else if StatusCode resp =? StatusNotFound then
        Some ErrAwsAccountNotFound
      else if StatusCode resp =? StatusUnauthorized then
        Some ErrClientAuthenticationError
      else
        Some (Errorf ("Unknown Response with CloudHealth: `"
                      ++ itoa (StatusCode resp) ++ "`"))
  end.

(** [DeleteAwsAccount] removes the AWS Account with the specified id. *)
Definition DeleteAwsAccount (s : Client) (id : Z) : M (option Error) :=
  match url_Parse ("aws_accounts/" ++ itoa id ++ "?api_key=" ++ ApiKey s) with
  | inl _ => panic
  | inr relativeURL =>
      let url := ResolveReference (EndpointURL s) relativeURL in
      match http_NewRequest "DELETE" (URL_String url) None with
      | inl _ => panic
      | inr req =>
          r <- Do (client_Timeout s) req ;;
          ret (deleted_result r)
      end
  end.

End Operations.

(* ================================================================== *)
(** ** Observing a run *)

Section Observations.

Context {L : Library}.

(** The round trips performed between two states of one run. *)
Definition exchanges (st st' : St) : list Exchange :=
  skipn (List.length (log st)) (log st').

(** What [getPaginatedAwsAccounts] returned for a round trip. *)
Definition fetched (x : Exchange) : Error + option AwsAccounts :=
  page_result (snd x).

(** The accounts of the pages fetched, in the order of the round trips. *)
Definition accounts_of (exs : list Exchange) : list AwsAccount :=
  flat_map (fun x => match fetched x with
                     | inr (Some accountsPage) => Accounts accountsPage
                     | _ => []
                     end) exs.

(** The page number of the request of iteration [i] (the first is
    iteration 0): [pageNo] starts at 1 and [pageNo++] has run [i] times. *)
Definition page_number (i : nat) : Z := wrap64 (Z.of_nat i + 1).

(** The request of iteration [i]: the request built before the loop, on
    which [per_page] and [page] have been set at every iteration up to
    [i]. *)
Fixpoint page_request (req : Request URL) (perPage : Z) (i : nat)
  : Request URL :=
  match i with
  | O => set_page req (page_number 0) perPage
  | S j => set_page (page_request req perPage j) (page_number (S j)) perPage
  end.

(** The slice of [db] that is page [i] (from 0) for pages of [n] items. *)
Definition slice (db : list AwsAccount) (n i : nat) : list AwsAccount :=
  firstn n (skipn (i * n) db).

(** A well-behaved remote service holding the accounts [db]: whatever its
    state, it answers the request of iteration [i] with status 200 and a
    body that decodes to the [i]-th slice of [perPage] accounts: full
    pages, then one short (maybe empty) page. *)
Definition serves (timeout : Z) (req : Request URL) (perPage : Z)
    (db : list AwsAccount) : Prop :=
  forall (i : nat) (w : World),
    (i <= List.length db / Z.to_nat perPage)%nat ->
    exists body w',
      client_Do timeout (page_request req perPage i) w
      = (inr {| StatusCode := StatusOK; ReadAll := inr body |}, w')
      /\ json_Unmarshal_AwsAccounts body
         = inr (Some {| Accounts := slice db (Z.to_nat perPage) i |}).

(** A remote service every fetch from which succeeds with an empty
    page. *)
Definition serves_nothing (timeout : Z) : Prop :=
  forall (req : Request URL) (w : World),
    exists accountsPage,
      page_result (fst (client_Do timeout req w)) = inr (Some accountsPage)
      /\ Accounts accountsPage = [].

(** The number of requests for [T] accounts in pages of [N]: the pages
    needed, [ceil(T/N)], and one more when [T] is a multiple of [N]. *)
Definition ceil_div (a b : Z) : Z := (a + b - 1) / b.

Definition expected_requests (T N : Z) : Z :=
  ceil_div T N + (if T mod N =? 0 then 1 else 0).

(** The request [GetAllAwsAccounts] builds before its loop (lines 81-86),
    when it gets that far. *)
Definition collection_request (s : Client) : option (Request URL) :=
  match url_Parse ("aws_accounts?api_key=" ++ ApiKey s) with
  | inl _ => None
  | inr relativeURL =>
      match http_NewRequest "GET"
              (URL_String (ResolveReference (EndpointURL s) relativeURL)) None with
      | inl _ => None
      | inr req => Some req
      end
  end.

(** The loop goes on after a fetch exactly when the fetch returned a page
    whose length is the requested page size. *)
Definition goes_on (perPage : Z) (r : Error + option AwsAccounts) : bool :=
  match r with
  | inr (Some accountsPage) =>
      Z.of_nat (List.length (Accounts accountsPage)) =? perPage
  | _ => false
  end.

(** A call of one of the five operations. *)
Inductive Call : Type :=
| CallGetAll (perPage : Z)
| CallGet (id : Z)
| CallCreate (account : AwsAccount)
| CallUpdate (account : AwsAccount)
| CallDelete (id : Z).

Definition error_of {A : Type} (r : Error + A) : option Error :=
  match r with
  | inl err => Some err
  | inr _ => None
  end.

(** The [error] a call returns. *)
Definition call_error (fuel : nat) (s : Client) (c : Call) : M (option Error) :=
  match c with
  | CallGetAll perPage => r <- GetAllAwsAccounts fuel s perPage ;; ret (error_of r)
  | CallGet id => r <- GetAwsAccount s id ;; ret (error_of r)
  | CallCreate account => r <- CreateAwsAccount s account ;; ret (error_of r)
  | CallUpdate account => r <- UpdateAwsAccount s account ;; ret (error_of r)
  | CallDelete id => DeleteAwsAccount s id
  end.

(** The status codes each operation's [switch] has a [case] for. *)
Definition handled (c : Call) : list Z :=
  match c with
  | CallGetAll _ => [StatusOK; StatusUnauthorized; StatusNotFound]
  | CallGet _ => [StatusOK; StatusUnauthorized; StatusNotFound]
  | CallCreate _ => [StatusCreated; StatusUnauthorized; StatusUnprocessableEntity]
  | CallUpdate _ => [StatusOK; StatusUnauthorized; StatusUnprocessableEntity]
  | CallDelete _ => [StatusOK; StatusNoContent; StatusNotFound; StatusUnauthorized]
  end.

(** The operations that read the body of the response before they look at
    its status: all but [DeleteAwsAccount]. *)
Definition reads_body (c : Call) : bool :=
  match c with
  | CallDelete _ => false
  | _ => true
  end.

(** The body of the response was delivered to the call, as far as the call
    asks for it. *)
Definition body_delivered (c : Call) (resp : Response) : Prop :=
  reads_body c = true -> exists responseBody, ReadAll resp = inr responseBody.

(** The generic error of an operation's [default] case. *)
Definition unknown_response (c : Call) (code : Z) : Error :=
  match c with
  | CallGetAll _ =>
      Errorf ("Unknown Response from CloudHealth: `" ++ itoa code ++ "`")
  | _ =>
      Errorf ("Unknown Response with CloudHealth: `" ++ itoa code ++ "`")
  end.

(** The [error] a call returns when its round trip, or for
    [GetAllAwsAccounts] the round trip of one of its fetches, went as
    [r]. *)
Definition call_result (c : Call) (r : Error + Response) : option Error :=
  match c with
  | CallGetAll _ => error_of (page_result r)
  | CallGet _ => error_of (got_result r)
  | CallCreate account => error_of (created_result account r)
  | CallUpdate account => error_of (updated_result account r)
  | CallDelete _ => deleted_result r
  end.

(** The claim that the loop stops after a fetch that returned a page
    strictly shorter than the page size, or an error. *)
Definition short_or_error (perPage : Z) (r : Error + option AwsAccounts)
  : Prop :=
  match r with
  | inl _ => True
  | inr (Some accountsPage) =>
      Z.of_nat (List.length (Accounts accountsPage)) < perPage
  | inr None => False
  end.

(** What the loop condition [pageLen == perPage] makes of it: a page of
    any other length than the page size, or an error. *)
Definition other_length_or_error (perPage : Z)
    (r : Error + option AwsAccounts) : Prop :=
  match r with
  | inl _ => True
  | inr (Some accountsPage) =>
      Z.of_nat (List.length (Accounts accountsPage)) <> perPage
  | inr None => False
  end.

End Observations.

(* ================================================================== *)
(** ** A small world to run the operations in

    An instance of [Library] that computes: URLs are a location and a raw
    query, a query is a list of pairs kept in key order when encoded, the
    remote service is a handler that sees how many requests it has served,
    and the decoders know the bodies the handler can produce. *)

Module Mock.

Definition dq : string := String (ascii_of_nat 34) EmptyString.

(** String literals without escapes (enough for the names used here). *)
Definition quote (s : string) : string := dq ++ s ++ dq.

Record MockURL : Type := {
  Location : string;
  RawQuery : string
}.

Fixpoint split_on (c : ascii) (s : string) : list string :=
  match s with
  | EmptyString => [EmptyString]
  | String a rest =>
      let parts := split_on c rest in
      if Ascii.eqb a c then EmptyString :: parts
      else match parts with
           | part :: more => String a part :: more
           | [] => [String a EmptyString]
           end
  end.

Definition is_control (a : ascii) : bool :=
  (nat_of_ascii a <? 32)%nat || (nat_of_ascii a =? 127)%nat.

Fixpoint has_control (s : string) : bool :=
  match s with
  | EmptyString => false
  | String a rest => is_control a || has_control rest
  end.

Definition parse (s : string) : Error + MockURL :=
  if has_control s then
    inl (LibraryError "net/url: invalid control character in URL")
  else
    match split_on "?" s with
    | [loc] => inr {| Location := loc; RawQuery := EmptyString |}
    | loc :: q :: _ => inr {| Location := loc; RawQuery := q |}
    | [] => inr {| Location := s; RawQuery := EmptyString |}
    end.

Definition resolve (base ref : MockURL) : MockURL :=
  {| Location := Location base ++ Location ref; RawQuery := RawQuery ref |}.

Definition text (u : MockURL) : string :=
  match RawQuery u with
  | EmptyString => Location u
  | q => Location u ++ "?" ++ q
  end.

Definition pair_of (kv : string) : string * string :=
  match split_on "=" kv with
  | k :: v :: _ => (k, v)
  | [k] => (k, EmptyString)
  | [] => (EmptyString, EmptyString)
  end.

Definition query (u : MockURL) : list (string * string) :=
  match RawQuery u with
  | EmptyString => []
  | q => map pair_of (split_on "&" q)
  end.

Definition set (q : list (string * string)) (k v : string)
  : list (string * string) :=
  (filter (fun kv => negb (String.eqb (fst kv) k)) q ++ [(k, v)])%list.

Fixpoint insert (kv : string * string) (q : list (string * string))
  : list (string * string) :=
  match q with
  | [] => [kv]
  | kv' :: rest =>
      if String.leb (fst kv) (fst kv') then kv :: q else kv' :: insert kv rest
  end.

Definition encode (q : list (string * string)) : string :=
  String.concat "&"
    (map (fun kv => fst kv ++ "=" ++ snd kv) (fold_right insert [] q)).

Definition with_query (u : MockURL) (raw : string) : MockURL :=
  {| Location := Location u; RawQuery := raw |}.

(** The value of a query parameter of a request. *)
Definition param (req : Request MockURL) (k : string) : option string :=
  option_map snd
    (find (fun kv => String.eqb (fst kv) k) (query (ReqURL req))).

Fixpoint lookup {A : Type} (k : string) (table : list (string * A)) : option A :=
  match table with
  | [] => None
  | (k', v) :: rest => if String.eqb k' k then Some v else lookup k rest
  end.

(** A decoder that knows the bodies of [table], and the text [null]. *)
Definition decode {A : Type} (table : list (string * A)) (body : string)
  : Error + option A :=
  if String.eqb body "null" then inr None
  else match lookup body table with
       | Some v => inr (Some v)
       | None => inl (LibraryError "invalid character looking for beginning of value")
       end.

(** The body of a list response holding [accounts]. *)
Definition page_body (accounts : list AwsAccount) : string :=
  "{" ++ quote "aws_accounts" ++ ":["
  ++ String.concat "," (map (fun a => render quote (marshal_AwsAccount a)) accounts)
  ++ "]}".

Definition account_body (a : AwsAccount) : string :=
  render quote (marshal_AwsAccount a).

(** The library over a remote service [handler] (which is told how many
    requests it served before, the timeout and the request) whose list
    responses hold one of [pages] and whose account responses hold one of
    [accounts]. *)
Definition library
    (handler : nat -> Z -> Request MockURL -> Error + Response)
    (pages : list (list AwsAccount)) (accounts : list AwsAccount) : Library :=
  {| URL := MockURL;
     Values := list (string * string);
     World := nat;
     url_Parse := parse;
     ResolveReference := resolve;
     URL_String := text;
     URL_Query := query;
     Values_Set := set;
     Values_Encode := encode;
     set_RawQuery := with_query;
     client_Do := fun timeout req served => (handler served timeout req, S served);
     json_Unmarshal_AwsAccounts :=
       decode (map (fun p => (page_body p, {| Accounts := p |})) pages);
     json_Unmarshal_AwsAccount :=
       decode (map (fun a => (account_body a, a)) accounts);
     json_quote := quote |}.

Definition ok (body : string) : Error + Response :=
  inr {| StatusCode := StatusOK; ReadAll := inr body |}.

Definition status (code : Z) (body : string) : Error + Response :=
  inr {| StatusCode := code; ReadAll := inr body |}.

Definition account (id : Z) (name : string) : AwsAccount :=
  {| ID := id; Name := name;
     Authentication := {| Protocol := "assume_role";
                          AccessKey := EmptyString;
                          SecreyKey := EmptyString;
                          AssumeRoleArn := "arn:aws:iam::1:role/r";
                          AssumeRoleExternalID := EmptyString |} |}.

(** A well-behaved list endpoint over [db]: the request for page [p] with
    [per_page = n] is answered by the [p]-th slice of [n] accounts. *)
Definition paging_handler (db : list AwsAccount) (n : nat)
  : nat -> Z -> Request MockURL -> Error + Response :=
  fun _ _ req =>
    match param req "page", param req "per_page" with
    | Some p, Some pp =>
        if String.eqb pp (itoa (Z.of_nat n)) then
          match find (fun i => String.eqb p (itoa (Z.of_nat i + 1)))
                  (seq 0 (S (List.length db))) with
          | Some i => ok (page_body (slice db n i))
          | None => ok (page_body [])
          end
        else status 400 EmptyString
    | _, _ => status 400 EmptyString
    end.

(** A service that gives the same answer to every request. *)
Definition always (r : Error + Response)
  : nat -> Z -> Request MockURL -> Error + Response :=
  fun _ _ _ => r.

(** A service that answers its first requests with [first], in order, and
    every later one with [r]. *)
Definition script (first : list (Error + Response)) (r : Error + Response)
  : nat -> Z -> Request MockURL -> Error + Response :=
  fun served _ _ => nth served first r.

Definition endpoint : MockURL :=
  {| Location := "https://chapi.cloudhealthtech.com/v1/";
     RawQuery := EmptyString |}.

Definition client (L : Library) (u : @URL L) : @Client L :=
  {| ApiKey := "k"; EndpointURL := u; Timeout := 15 |}.

Definition start (L : Library) (w : @World L) : @St L :=
  {| world := w; log := [] |}.

Definition db5 : list AwsAccount :=
  [account 1 "a"; account 2 "b"; account 3 "c"; account 4 "d"; account 5 "e"].

(** Five accounts served in pages of two. *)
Definition paged : Library :=
  library (paging_handler db5 2)
    [slice db5 2 0; slice db5 2 1; slice db5 2 2; []] [].

(** A service that ignores [per_page] and sends two accounts at once. *)
Definition generous : Library :=
  library (always (ok (page_body [account 1 "a"; account 2 "b"])))
    [[account 1 "a"; account 2 "b"]] [].

(** A service that sends one full page of two accounts and then fails. *)
Definition failing : Library :=
  library (script [ok (page_body [account 1 "a"; account 2 "b"])]
             (status 500 "oops"))
    [[account 1 "a"; account 2 "b"]] [].

(** A service with no account. *)
Definition empty : Library :=
  library (always (ok (page_body []))) [[]] [].

(** A service that answers everything with the status [code]. *)
Definition stubborn (code : Z) : Library :=
  library (always (status code (account_body (account 7 "prod"))))
    [] [account 7 "prod"].

End Mock.

(* ================================================================== *)
(** ** How a run can go *)

Section Runs.

Context {L : Library}.

(** The request the loop holds when iteration [i] starts. *)
Definition request_before (req : Request URL) (perPage : Z) (i : nat)
  : Request URL :=
  match i with
  | O => req
  | S j => page_request req perPage j
  end.

(** [Paging perPage accounts exs r]: entered with [accounts] accumulated,
    the loop performs the round trips [exs] and ends as [r]. *)
Inductive Paging (perPage : Z) (accounts : list AwsAccount)
  : list Exchange -> Res (Error + list AwsAccount) -> Prop :=
| paging_unfinished :
    Paging perPage accounts [] Unfinished
| paging_error x err :
    fetched x = inl err ->
    Paging perPage accounts [x] (Val (inl err))
| paging_nil x :
    fetched x = inr None ->
    Paging perPage accounts [x] Panic
| paging_last x accountsPage :
    fetched x = inr (Some accountsPage) ->
    Z.of_nat (List.length (Accounts accountsPage)) <> perPage ->
    Paging perPage accounts [x]
      (Val (inr (accounts ++ Accounts accountsPage)%list))
| paging_more x accountsPage exs r :
    fetched x = inr (Some accountsPage) ->
    Z.of_nat (List.length (Accounts accountsPage)) = perPage ->
    Paging perPage (accounts ++ Accounts accountsPage)%list exs r ->
    Paging perPage accounts (x :: exs) r.

(** A single-request operation either panics before it sends anything, or
    sends one request and returns what its dispatch makes of the answer. *)
Definition one_round_trip {A : Type} (s : Client) (m : M A)
    (dispatch : Error + Response -> A) (sent : Request URL -> Prop) : Prop :=
  forall st,
    (fst (m st) = Panic /\ snd (m st) = st)
    \/ (exists req,
          sent req
          /\ fst (m st)
             = Val (dispatch (fst (client_Do (client_Timeout s) req (world st))))
          /\ snd (m st)
             = {| world := snd (client_Do (client_Timeout s) req (world st));
                  log := (log st
                          ++ [(req, fst (client_Do (client_Timeout s) req (world st)))])%list |}).

End Runs.

Section Properties.

Context {L : Library}.

Lemma wrap64_succ (a : Z) : wrap64 (wrap64 a + 1) = wrap64 (a + 1).
Proof.
  unfold wrap64.
  replace ((a + 2 ^ 63) mod 2 ^ 64 - 2 ^ 63 + 1 + 2 ^ 63)
    with ((a + 2 ^ 63) mod 2 ^ 64 + 1) by ring.
  rewrite Zplus_mod_idemp_l.
  f_equal. f_equal. ring.
Qed.

Lemma wrap64_small (a : Z) : min_int <= a <= max_int -> wrap64 a = a.
Proof.
  unfold wrap64, min_int, max_int. intros H.
  rewrite Z.mod_small; lia.
Qed.

Lemma page_number_succ (i : nat) :
  wrap64 (page_number i + 1) = page_number (S i).
Proof.
  unfold page_number. rewrite wrap64_succ. f_equal. lia.
Qed.

(** For as many requests as a run can make in practice, the page number
    of request [i] is [i + 1]. *)
Lemma page_number_small (i : nat) :
  Z.of_nat i < max_int -> page_number i = Z.of_nat i + 1.
Proof.
  intros H. unfold page_number. apply wrap64_small.
  unfold min_int, max_int in *. lia.
Qed.

Lemma page_request_unfold (req : Request URL) (perPage : Z) (i : nat) :
  page_request req perPage i
  = set_page (request_before req perPage i) (page_number i) perPage.
Proof. destruct i; reflexivity. Qed.

Lemma exchanges_app (st st' : St) (exs : list Exchange) :
  log st' = (log st ++ exs)%list -> exchanges st st' = exs.
Proof.
  intros H. unfold exchanges. rewrite H.
  rewrite skipn_app, skipn_all, Nat.sub_diag. reflexivity.
Qed.

Lemma getPaginatedAwsAccounts_run (timeout : Z) (req : Request URL)
    (page perPage : Z) (st : St) :
  getPaginatedAwsAccounts timeout req page perPage st
  = let req' := set_page req page perPage in
    let x := client_Do timeout req' (world st) in
    (Val (req', page_result (fst x)),
     {| world := snd x; log := (log st ++ [(req', fst x)])%list |}).
Proof.
  unfold getPaginatedAwsAccounts, bind, Do, ret. cbv zeta.
  destruct (client_Do _ _ _) as [r w]. reflexivity.
Qed.

Lemma pages_stop (fuel : nat) (timeout : Z) (req : Request URL)
    (perPage pageNo pageLen : Z) (accounts : list AwsAccount) (st : St) :
  pageLen <> perPage ->
  pages fuel timeout req perPage pageNo pageLen accounts st
  = (Val (inr accounts), st).
Proof.
  intros H. apply Z.eqb_neq in H.
  destruct fuel; simpl; rewrite H; reflexivity.
Qed.

Lemma pages_step (fuel : nat) (timeout : Z) (req : Request URL)
    (perPage pageNo : Z) (accounts : list AwsAccount) (st : St) :
  pages (S fuel) timeout req perPage pageNo perPage accounts st
  = let req' := set_page req pageNo perPage in
    let x := client_Do timeout req' (world st) in
    let st1 := {| world := snd x; log := (log st ++ [(req', fst x)])%list |} in
    match page_result (fst x) with
    | inl err => (Val (inl err), st1)
    | inr None => (Panic, st1)
    | inr (Some accountsPage) =>
        pages fuel timeout req' perPage (wrap64 (pageNo + 1))
          (Z.of_nat (List.length (Accounts accountsPage)))
          (accounts ++ Accounts accountsPage)%list st1
    end.
Proof.
  simpl. rewrite Z.eqb_refl. unfold bind at 1.
  rewrite getPaginatedAwsAccounts_run. cbv zeta.
  destruct (page_result _) as [err | [accountsPage | ]]; reflexivity.
Qed.

Lemma pages_paging (fuel : nat) :
  forall (timeout : Z) (req0 : Request URL) (perPage : Z) (k : nat)
         (accounts : list AwsAccount) (st : St) r st',
    pages fuel timeout (request_before req0 perPage k) perPage
      (page_number k) perPage accounts st = (r, st') ->
    exists exs,
      log st' = (log st ++ exs)%list
      /\ Paging perPage accounts exs r
      /\ map fst exs = map (page_request req0 perPage) (seq k (List.length exs))
      /\ (List.length exs <= fuel)%nat
      /\ (r = Unfinished -> List.length exs = fuel).
Proof.
  induction fuel as [| fuel IH]; intros timeout req0 perPage k accounts st r st' H.
  - simpl in H. rewrite Z.eqb_refl in H. inversion H; subst.
    exists []. rewrite app_nil_r. repeat split; auto. constructor.
  - rewrite pages_step in H. cbv zeta in H.
    rewrite <- page_request_unfold in H.
    set (req' := page_request req0 perPage k) in *.
    set (x := client_Do timeout req' (world st)) in *.
    set (st1 := {| world := snd x; log := (log st ++ [(req', fst x)])%list |}) in *.
    destruct (page_result (fst x)) as [err | [accountsPage | ]] eqn:Hx.
    + inversion H; subst. exists [(req', fst x)].
      repeat split; simpl; auto; try lia; try discriminate.
      apply paging_error. exact Hx.
    + destruct (Z.eq_dec (Z.of_nat (List.length (Accounts accountsPage))) perPage)
        as [Hlen | Hlen].
      * rewrite Hlen, page_number_succ in H.
        change req' with (request_before req0 perPage (S k)) in H.
        apply IH in H. destruct H as (exs & Hlog & Hp & Hreq & Hle & Hun).
        exists ((req', fst x) :: exs). repeat split.
        -- rewrite Hlog. simpl. rewrite <- app_assoc. reflexivity.
        -- eapply paging_more; eauto.
        -- simpl. rewrite Hreq. reflexivity.
        -- simpl. lia.
        -- intros Hr. simpl. rewrite (Hun Hr). reflexivity.
      * rewrite pages_stop in H by exact Hlen. inversion H; subst.
        exists [(req', fst x)].
        repeat split; simpl; auto; try lia; try discriminate.
        apply paging_last; assumption.
    + inversion H; subst. exists [(req', fst x)].
      repeat split; simpl; auto; try lia; try discriminate.
      apply paging_nil. exact Hx.
Qed.


Lemma exchanges_none (st : St) : exchanges st st = [].
Proof. unfold exchanges. apply skipn_all. Qed.

Lemma exchanges_one (st : St) (w : World) (x : Exchange) :
  exchanges st {| world := w; log := (log st ++ [x])%list |} = [x].
Proof. apply exchanges_app. reflexivity. Qed.

Lemma Paging_accounts (perPage : Z) (accounts : list AwsAccount)
    (exs : list Exchange) r :
  Paging perPage accounts exs r ->
  forall all, r = Val (inr all) -> all = (accounts ++ accounts_of exs)%list.
Proof.
  induction 1 as [accounts | accounts x err Hx | accounts x Hx
                  | accounts x accountsPage Hx Hlen
                  | accounts x accountsPage exs r Hx Hlen Hp IH];
    intros all Hr; try discriminate.
  - inversion Hr; subst. unfold accounts_of. simpl. rewrite Hx.
    rewrite app_nil_r. reflexivity.
  - rewrite (IH all Hr). unfold accounts_of. simpl. rewrite Hx.
    rewrite app_assoc. reflexivity.
Qed.

Lemma Paging_error (perPage : Z) (accounts : list AwsAccount)
    (exs : list Exchange) r :
  Paging perPage accounts exs r ->
  forall x err, In x exs -> fetched x = inl err -> r = Val (inl err).
Proof.
  induction 1 as [accounts | accounts x err Hx | accounts x Hx
                  | accounts x accountsPage Hx Hlen
                  | accounts x accountsPage exs r Hx Hlen Hp IH];
    intros y e Hin Hy; simpl in Hin.
  - contradiction.
  - destruct Hin as [-> | []]. congruence.
  - destruct Hin as [-> | []]. congruence.
  - destruct Hin as [-> | []]. congruence.
  - destruct Hin as [-> | Hin]; [congruence | eauto].
Qed.

Lemma Paging_nil (perPage : Z) (accounts : list AwsAccount)
    (exs : list Exchange) r :
  Paging perPage accounts exs r ->
  forall x, In x exs -> fetched x = inr None -> r = Panic.
Proof.
  induction 1 as [accounts | accounts x err Hx | accounts x Hx
                  | accounts x accountsPage Hx Hlen
                  | accounts x accountsPage exs r Hx Hlen Hp IH];
    intros y Hin Hy; simpl in Hin.
  - contradiction.
  - destruct Hin as [-> | []]. congruence.
  - reflexivity.
  - destruct Hin as [-> | []]. congruence.
  - destruct Hin as [-> | Hin]; [congruence | eauto].
Qed.

(** In a run that returned, the loop went on after every round trip but
    the last. *)
Lemma Paging_last (perPage : Z) (accounts : list AwsAccount)
    (exs : list Exchange) r :
  Paging perPage accounts exs r ->
  r <> Unfinished ->
  forall i x, nth_error exs i = Some x ->
    (S i = List.length exs <-> goes_on perPage (fetched x) = false).
Proof.
  induction 1 as [accounts | accounts x err Hx | accounts x Hx
                  | accounts x accountsPage Hx Hlen
                  | accounts x accountsPage exs r Hx Hlen Hp IH];
    intros Hr i y Hy.
  - contradiction.
  - destruct i as [| [| i]]; simpl in Hy; try discriminate.
    injection Hy as <-. rewrite Hx. simpl. tauto.
  - destruct i as [| [| i]]; simpl in Hy; try discriminate.
    injection Hy as <-. rewrite Hx. simpl. tauto.
  - destruct i as [| [| i]]; simpl in Hy; try discriminate.
    injection Hy as <-. rewrite Hx. simpl.
    apply Z.eqb_neq in Hlen. rewrite Hlen. tauto.
  - destruct i as [| i]; simpl in Hy.
    + injection Hy as <-. rewrite Hx. simpl.
      rewrite (proj2 (Z.eqb_eq _ _) Hlen).
      split; [| discriminate]. intros Hone.
      destruct exs; [| discriminate]. inversion Hp. congruence.
    + specialize (IH Hr i y Hy). simpl. rewrite <- IH. lia.
Qed.

Lemma GetAllAwsAccounts_paging (fuel : nat) (s : Client) (perPage : Z)
    (st : St) r st' :
  GetAllAwsAccounts fuel s perPage st = (r, st') ->
  exists exs,
    log st' = (log st ++ exs)%list
    /\ ((collection_request s = None /\ exs = []
         /\ (r = Panic \/ exists err, r = Val (inl err)))
        \/ (exists req0,
              collection_request s = Some req0
              /\ Paging perPage [] exs r
              /\ map fst exs
                 = map (page_request req0 perPage) (seq 0 (List.length exs))
              /\ (List.length exs <= fuel)%nat
              /\ (r = Unfinished -> List.length exs = fuel))).
Proof.
  unfold GetAllAwsAccounts, collection_request. intros H.
  destruct (url_Parse _) as [err | relativeURL].
  - inversion H; subst. exists []. rewrite app_nil_r. split; auto.
  - destruct (http_NewRequest _ _ _) as [err | req].
    + inversion H; subst. exists []. rewrite app_nil_r. split; eauto 6.
    + change req with (request_before req perPage 0) in H.
      change 1 with (page_number 0) in H.
      apply pages_paging in H. destruct H as (exs & Hlog & Hrest).
      exists exs. split; [exact Hlog |]. right. exists req. split; auto.
Qed.

(** *** One round trip *)

Ltac one_round_trip :=
  intros st;
  match goal with
  | |- context [url_Parse ?u] => destruct (url_Parse u) as [? | ?]
  end;
  [ left; split; reflexivity | ];
  unfold http_NewRequest;
  match goal with
  | |- context [url_Parse ?u] => destruct (url_Parse u) as [? | ?]
  end;
  [ left; split; reflexivity | ];
  right; cbv zeta;
  match goal with
  | |- context [Do ?t ?r] => exists r
  end;
  unfold bind, Do, ret;
  match goal with
  | |- context [client_Do ?t ?r ?w] => destruct (client_Do t r w) as [? ?]
  end;
  simpl; repeat split; reflexivity.

Lemma GetAwsAccount_run (s : Client) (id : Z) :
  one_round_trip s (GetAwsAccount s id) got_result
    (fun req => Method req = "GET" /\ Body req = None).
Proof. unfold one_round_trip, GetAwsAccount. one_round_trip. Qed.

Lemma CreateAwsAccount_run (s : Client) (account : AwsAccount) :
  one_round_trip s (CreateAwsAccount s account) (created_result account)
    (fun req => Method req = "POST"
                /\ Body req = Some (render json_quote (marshal_AwsAccount account))).
Proof. unfold one_round_trip, CreateAwsAccount. cbv zeta. one_round_trip. Qed.

Lemma UpdateAwsAccount_run (s : Client) (account : AwsAccount) :
  one_round_trip s (UpdateAwsAccount s account) (updated_result account)
    (fun req => Method req = "PUT"
                /\ Body req = Some (render json_quote (marshal_AwsAccount account))).
Proof. unfold one_round_trip, UpdateAwsAccount. cbv zeta. one_round_trip. Qed.

Lemma DeleteAwsAccount_run (s : Client) (id : Z) :
  one_round_trip s (DeleteAwsAccount s id) deleted_result
    (fun req => Method req = "DELETE" /\ Body req = None).
Proof. unfold one_round_trip, DeleteAwsAccount. one_round_trip. Qed.

(** The round trips of such an operation, and its result from them. *)
Lemma one_round_trip_exchange {A : Type} (s : Client) (m : M A)
    (dispatch : Error + Response -> A) (sent : Request URL -> Prop) :
  one_round_trip s m dispatch sent ->
  forall st x,
    In x (exchanges st (snd (m st))) ->
    exchanges st (snd (m st)) = [x]
    /\ sent (fst x)
    /\ fst (m st) = Val (dispatch (snd x)).
Proof.
  intros H st x Hin. destruct (H st) as [[_ Hst] | (req & Hsent & Hr & Hst)].
  - rewrite Hst, exchanges_none in Hin. contradiction.
  - rewrite Hst, exchanges_one in *.
    destruct Hin as [<- | []]. simpl. auto.
Qed.

Lemma bind_ret_fst {A B : Type} (m : M A) (f : A -> B) (st : St) :
  fst ((a <- m ;; ret (f a)) st)
  = match fst (m st) with
    | Val a => Val (f a)
    | Panic => Panic
    | Unfinished => Unfinished
    end.
Proof. unfold bind, ret. destruct (m st) as [[a | |] st']; reflexivity. Qed.

Lemma bind_ret_snd {A B : Type} (m : M A) (f : A -> B) (st : St) :
  snd ((a <- m ;; ret (f a)) st) = snd (m st).
Proof. unfold bind, ret. destruct (m st) as [[a | |] st']; reflexivity. Qed.

(** Whatever the operation, a round trip that its dispatch turns into an
    error decides the call: the call returns that error. *)
Lemma call_error_decided (fuel : nat) (s : Client) (c : Call) (st : St)
    (x : Exchange) (err : Error) :
  In x (exchanges st (snd (call_error fuel s c st))) ->
  call_result c (snd x) = Some err ->
  fst (call_error fuel s c st) = Val (Some err).
Proof.
  destruct c as [perPage | id | account | account | id]; simpl;
    try rewrite bind_ret_fst, bind_ret_snd; intros Hin Hres.
  - destruct (GetAllAwsAccounts fuel s perPage st) as [r st'] eqn:Hrun.
    simpl in *.
    destruct (GetAllAwsAccounts_paging _ _ _ _ _ _ Hrun)
      as (exs & Hlog & [(_ & -> & _) | (req0 & _ & Hp & _)]);
      rewrite (exchanges_app _ _ _ Hlog) in Hin; [contradiction |].
    assert (Hx : fetched x = inl err).
    { unfold fetched. destruct (page_result (snd x)); simpl in Hres; congruence. }
    rewrite (Paging_error _ _ _ _ Hp x err Hin Hx). reflexivity.
  - destruct (one_round_trip_exchange _ _ _ _ (GetAwsAccount_run s id) st x Hin)
      as (_ & _ & ->).
    rewrite Hres. reflexivity.
  - destruct (one_round_trip_exchange _ _ _ _ (CreateAwsAccount_run s account) st x Hin)
      as (_ & _ & ->).
    rewrite Hres. reflexivity.
  - destruct (one_round_trip_exchange _ _ _ _ (UpdateAwsAccount_run s account) st x Hin)
      as (_ & _ & ->).
    rewrite Hres. reflexivity.
  - destruct (one_round_trip_exchange _ _ _ _ (DeleteAwsAccount_run s id) st x Hin)
      as (_ & _ & ->).
    rewrite Hres. reflexivity.
Qed.

(** *** A well-behaved service *)

Lemma firstn_slice (db : list AwsAccount) (n i : nat) :
  (firstn (i * n) db ++ slice db n i)%list = firstn (S i * n) db.
Proof.
  unfold slice. replace (S i * n)%nat with (i * n + n)%nat by lia.
  generalize (i * n)%nat as a. intros a. revert db.
  induction a as [| a IH]; intros db; [reflexivity |].
  destruct db as [| d db]; simpl.
  - rewrite firstn_nil. reflexivity.
  - rewrite IH. reflexivity.
Qed.

Lemma slice_length (db : list AwsAccount) (n i : nat) :
  List.length (slice db n i) = Nat.min n (List.length db - i * n).
Proof. unfold slice. rewrite length_firstn, length_skipn. reflexivity. Qed.

Lemma expected_requests_eq (T : nat) (N : Z) :
  0 < N ->
  expected_requests (Z.of_nat T) N = Z.of_nat (S (T / Z.to_nat N)).
Proof.
  intros HN. unfold expected_requests, ceil_div.
  rewrite Nat2Z.inj_succ, Nat2Z.inj_div, Z2Nat.id by lia.
  set (t := Z.of_nat T). assert (Ht : 0 <= t) by (unfold t; lia).
  pose proof (Z.div_mod t N ltac:(lia)) as Hdm.
  pose proof (Z.mod_pos_bound t N HN) as Hmod.
  destruct (Z.eqb_spec (t mod N) 0) as [Hz | Hz].
  - assert (Hq : (t + N - 1) / N = t / N).
    { symmetry. apply Z.div_unique with (N - 1); nia. }
    lia.
  - assert (Hq : (t + N - 1) / N = t / N + 1).
    { symmetry. apply Z.div_unique with (t mod N - 1); nia. }
    lia.
Qed.

(** 25 accounts in pages of 10 take 3 requests (10, 10, 5), and so do 20
    (10, 10, none). *)
Example expected_requests_25_10 : expected_requests 25 10 = 3.
Proof. reflexivity. Qed.

Example expected_requests_20_10 : expected_requests 20 10 = 3.
Proof. reflexivity. Qed.

Lemma page_result_served (body : string) (accountsPage : AwsAccounts) :
  json_Unmarshal_AwsAccounts body = inr (Some accountsPage) ->
  page_result (inr {| StatusCode := StatusOK; ReadAll := inr body |})
  = inr (Some accountsPage).
Proof. intros H. simpl. rewrite H. reflexivity. Qed.

(** From iteration [i] on, with the first [i] slices accumulated, the
    loop over a well-behaved service fetches the remaining slices and
    returns all accounts. *)
Lemma pages_serves (timeout : Z) (req0 : Request URL) (perPage : Z)
    (db : list AwsAccount) :
  0 < perPage ->
  serves timeout req0 perPage db ->
  forall (d i fuel : nat) (st : St),
    (i + d = List.length db / Z.to_nat perPage)%nat ->
    (d < fuel)%nat ->
    exists exs st',
      pages fuel timeout (request_before req0 perPage i) perPage
        (page_number i) perPage (firstn (i * Z.to_nat perPage) db) st
      = (Val (inr db), st')
      /\ log st' = (log st ++ exs)%list
      /\ List.length exs = S d
      /\ map fst exs = map (page_request req0 perPage) (seq i (S d)).
Proof.
  intros HN Hserves.
  set (n := Z.to_nat perPage). assert (Hn : (0 < n)%nat) by (unfold n; lia).
  pose proof (Nat.div_mod_eq (List.length db) n) as Hdm.
  pose proof (Nat.mod_upper_bound (List.length db) n ltac:(lia)) as Hmod.
  induction d as [| d IH]; intros i fuel st Hi Hfuel;
    (destruct fuel as [| fuel]; [lia |]);
    rewrite pages_step; cbv zeta; rewrite <- page_request_unfold;
    destruct (Hserves i (world st) ltac:(fold n; lia)) as (body & w' & HDo & Hdec);
    rewrite HDo; cbn [fst snd];
    rewrite (page_result_served _ _ Hdec); cbn [Accounts];
    fold n; rewrite firstn_slice.
  - rewrite pages_stop.
    + rewrite firstn_all2 by nia. eexists [_], _. repeat split.
    + rewrite slice_length. unfold n in *. nia.
  - assert (Hlen : Z.of_nat (List.length (slice db n i)) = perPage).
    { rewrite slice_length. unfold n in *. nia. }
    rewrite Hlen, page_number_succ.
    change (page_request req0 perPage i)
      with (request_before req0 perPage (S i)).
    match goal with
    | |- context [pages fuel _ _ _ _ _ _ ?st1] =>
        destruct (IH (S i) fuel st1 ltac:(lia) ltac:(lia))
          as (exs & st' & Hrun & Hlog & Hlenx & Hreq)
    end.
    rewrite Hrun. eexists (_ :: exs), st'. repeat split.
    + rewrite Hlog. simpl. rewrite <- app_assoc. reflexivity.
    + simpl. rewrite Hlenx. reflexivity.
    + cbn [map seq fst]. rewrite Hreq. reflexivity.
Qed.

Lemma GetAllAwsAccounts_loop (fuel : nat) (s : Client) (perPage : Z)
    (req0 : Request URL) :
  collection_request s = Some req0 ->
  GetAllAwsAccounts fuel s perPage
  = pages fuel (client_Timeout s) req0 perPage 1 perPage [].
Proof.
  unfold collection_request, GetAllAwsAccounts.
  destruct (url_Parse _) as [err | relativeURL]; [discriminate |].
  cbv zeta. destruct (http_NewRequest _ _ _) as [err | req]; [discriminate |].
  intros H. injection H as ->. reflexivity.
Qed.

(** With page size 0 and a service that only sends empty pages, the loop
    uses up any number of iterations it is given. *)
Lemma pages_forever (timeout : Z) :
  serves_nothing timeout ->
  forall (fuel : nat) (req : Request URL) (pageNo : Z)
         (accounts : list AwsAccount) (st : St),
    exists exs st',
      pages fuel timeout req 0 pageNo 0 accounts st = (Unfinished, st')
      /\ log st' = (log st ++ exs)%list
      /\ List.length exs = fuel.
Proof.
  intros Hempty. induction fuel as [| fuel IH]; intros req pageNo accounts st.
  - exists [], st. simpl. rewrite app_nil_r. auto.
  - rewrite pages_step. cbv zeta.
    destruct (Hempty (set_page req pageNo 0) (world st))
      as (accountsPage & -> & ->).
    cbn [Accounts List.length Z.of_nat].
    match goal with
    | |- context [pages fuel _ ?r _ ?p _ ?a ?st1] =>
        destruct (IH r p a st1) as (exs & st' & Hrun & Hlog & Hlen)
    end.
    rewrite Hrun. eexists (_ :: exs), st'. repeat split.
    + rewrite Hlog. simpl. rewrite <- app_assoc. reflexivity.
    + simpl. rewrite Hlen. reflexivity.
Qed.

Lemma unknown_response_message (c : Call) (code : Z) :
  exists msg,
    unknown_response c code = Errorf msg /\ contains msg (itoa code).
Proof.
  destruct c; eexists; (split; [reflexivity |]);
    eexists _, _; reflexivity.
Qed.

Lemma conflict_message (pre name post : string) :
  contains (pre ++ name ++ post) name.
Proof. exists pre, post. reflexivity. Qed.

End Properties.

(* ================================================================== *)
(** ** Listing all accounts *)

(** C1. For a page size [N > 0] and a well-behaved service holding the
    [T] accounts [db] (full pages of [N], then one short page),
    GetAllAwsAccounts, given at least as many iterations as it needs,
    returns exactly [db], in order, after exactly
    [ceil(T/N) + (1 if N divides T)] requests, which are the requests for
    the pages 1, 2, ... in turn. *)
Theorem GetAllAwsAccounts_well_behaved {L : Library} (fuel : nat) (s : Client)
    (N : Z) (db : list AwsAccount) (req0 : Request URL) (st : St) :
  0 < N ->
  collection_request s = Some req0 ->
  serves (client_Timeout s) req0 N db ->
  expected_requests (Z.of_nat (List.length db)) N <= Z.of_nat fuel ->
  let run := GetAllAwsAccounts fuel s N st in
  let exs := exchanges st (snd run) in
  fst run = Val (inr db)
  /\ Z.of_nat (List.length exs)
     = expected_requests (Z.of_nat (List.length db)) N
  /\ map fst exs = map (page_request req0 N) (seq 0 (List.length exs))
  /\ accounts_of exs = db.
Proof.
  intros HN Hreq Hserves Hfuel. cbv zeta.
  rewrite (GetAllAwsAccounts_loop _ _ _ _ Hreq).
  rewrite expected_requests_eq in * by exact HN.
  destruct (pages_serves _ _ _ _ HN Hserves
              (List.length db / Z.to_nat N) 0 fuel st
              ltac:(reflexivity) ltac:(lia))
    as (exs & st' & Hrun & Hlog & Hlen & Hreqs).
  change (request_before req0 N 0) with req0 in Hrun.
  change (page_number 0) with 1 in Hrun.
  change (firstn (0 * Z.to_nat N) db) with (@nil AwsAccount) in Hrun.
  rewrite Hrun. cbn [fst snd].
  rewrite (exchanges_app _ _ _ Hlog), Hlen.
  repeat split; auto.
  assert (Hp : exists exs', log st' = (log st ++ exs')%list
                            /\ Paging N [] exs' (Val (inr db))).
  { change req0 with (request_before req0 N 0) in Hrun.
    change 1 with (page_number 0) in Hrun.
    apply pages_paging in Hrun.
    destruct Hrun as (exs' & Hlog' & Hp & _). eauto. }
  destruct Hp as (exs' & Hlog' & Hp).
  rewrite Hlog in Hlog'. apply app_inv_head in Hlog'. subst exs'.
  symmetry. exact (Paging_accounts _ _ _ _ Hp db eq_refl).
Qed.

(** Five accounts in pages of two: three requests. *)
Lemma GetAllAwsAccounts_well_behaved_witness :
  let run := @GetAllAwsAccounts Mock.paged 10
               (Mock.client Mock.paged Mock.endpoint) 2
               (Mock.start Mock.paged 0%nat) in
  fst run = Val (inr Mock.db5)
  /\ List.length (exchanges (Mock.start Mock.paged 0%nat) (snd run)) = 3%nat.
Proof.
  cbv zeta.
  destruct (@GetAllAwsAccounts_well_behaved Mock.paged 10
              (Mock.client Mock.paged Mock.endpoint) 2 Mock.db5
              {| Method := "GET";
                 ReqURL := {| Mock.Location := "https://chapi.cloudhealthtech.com/v1/aws_accounts";
                              Mock.RawQuery := "api_key=k" |};
                 Header := []; Body := None |}
              (Mock.start Mock.paged 0%nat))
    as (Hres & Hcount & _).
  - lia.
  - reflexivity.
  - intros i w Hi.
    assert (Hi3 : (i <= 2)%nat) by exact Hi.
    destruct i as [| [| [| i]]]; [| | | lia];
      eexists _, _; split; vm_compute; reflexivity.
  - vm_compute. discriminate.
  - split; [exact Hres |].
    apply Nat2Z.inj. rewrite Hcount. reflexivity.
Defined.

(** C2, as the code has it. Whenever GetAllAwsAccounts returns (accounts
    or an error), its requests are the request it built before the loop
    with [per_page] and [page] set anew for each fetch, the page number
    being 1 for the first and one more (as a Go [int]) for each next; the
    accounts it returns are those of the fetched pages, appended in
    order; and a fetch is the last one exactly when it returned an error
    or a page whose length is not the page size, shorter or longer. *)
Theorem GetAllAwsAccounts_fetches {L : Library} (fuel : nat) (s : Client)
    (perPage : Z) (st : St) (v : Error + list AwsAccount) (st' : St) :
  GetAllAwsAccounts fuel s perPage st = (Val v, st') ->
  let exs := exchanges st st' in
  (forall req0 i x,
      collection_request s = Some req0 ->
      nth_error exs i = Some x ->
      fst x = set_page (request_before req0 perPage i) (page_number i) perPage)
  /\ page_number 0 = 1
  /\ (forall i, page_number (S i) = wrap64 (page_number i + 1))
  /\ (forall accounts, v = inr accounts -> accounts = accounts_of exs)
  /\ (forall i x,
        nth_error exs i = Some x ->
        (S i = List.length exs <-> other_length_or_error perPage (fetched x))).
Proof.
  intros Hrun. cbv zeta.
  destruct (GetAllAwsAccounts_paging _ _ _ _ _ _ Hrun)
    as (exs & Hlog & Hcases).
  rewrite (exchanges_app _ _ _ Hlog).
  split; [| split; [reflexivity | split; [intros i; symmetry; apply page_number_succ |]]].
  - intros req0 i x Hreq Hx.
    destruct Hcases as [(_ & -> & _) | (req1 & Hreq1 & _ & Hreqs & _)].
    + destruct i; discriminate.
    + rewrite Hreq in Hreq1. injection Hreq1 as <-.
      rewrite <- page_request_unfold.
      assert (Hlt : (i < List.length exs)%nat)
        by (apply nth_error_Some; congruence).
      apply (map_nth_error fst) in Hx. rewrite Hreqs in Hx.
      rewrite (map_nth_error (page_request req0 perPage) i (seq 0 (List.length exs))
                 (d := i)) in Hx.
      * congruence.
      * rewrite nth_error_nth' with (d := 0%nat) by (rewrite length_seq; exact Hlt).
        rewrite seq_nth by exact Hlt. reflexivity.
  - destruct Hcases as [(_ & -> & Hc) | (req1 & _ & Hp & _)].
    + split; [| intros [| i] x Hx; discriminate].
      intros accounts ->.
      destruct Hc as [Hc | (err & Hc)]; discriminate.
    + split.
      * intros accounts ->.
        exact (Paging_accounts _ _ _ _ Hp accounts eq_refl).
      * intros i x Hx.
        rewrite (Paging_last _ _ _ _ Hp ltac:(discriminate) i x Hx).
        assert (Hnil : fetched x <> inr None).
        { intros Hn.
          assert (Hin : In x exs) by (eapply nth_error_In; eauto).
          pose proof (Paging_nil _ _ _ _ Hp x Hin Hn). discriminate. }
        unfold goes_on, other_length_or_error.
        destruct (fetched x) as [err | [accountsPage |]].
        -- tauto.
        -- rewrite Z.eqb_neq. tauto.
        -- contradiction.
Qed.

(** A service that sends two accounts for [per_page=1]: the loop stops
    after the first fetch, which returned no error and a page longer than
    the page size. *)
Lemma GetAllAwsAccounts_fetches_witness :
  let st := Mock.start Mock.generous 0%nat in
  let run := @GetAllAwsAccounts Mock.generous 10
               (Mock.client Mock.generous Mock.endpoint) 1 st in
  fst run = Val (inr [Mock.account 1 "a"; Mock.account 2 "b"])
  /\ (forall i x,
        nth_error (exchanges st (snd run)) i = Some x ->
        (S i = List.length (exchanges st (snd run))
         <-> other_length_or_error 1 (fetched x))).
Proof.
  cbv zeta. split; [vm_compute; reflexivity |].
  refine (proj2 (proj2 (proj2 (proj2
            (@GetAllAwsAccounts_fetches Mock.generous 10
               (Mock.client Mock.generous Mock.endpoint) 1
               (Mock.start Mock.generous 0%nat)
               (inr [Mock.account 1 "a"; Mock.account 2 "b"]) _ _))))).
  vm_compute. reflexivity.
Defined.

(** C2 as stated fails on that run: its only fetch is the last one, yet it
    returned neither an error nor a page shorter than the page size. *)
Lemma GetAllAwsAccounts_stops_on_long_page :
  let st := Mock.start Mock.generous 0%nat in
  let run := @GetAllAwsAccounts Mock.generous 10
               (Mock.client Mock.generous Mock.endpoint) 1 st in
  fst run = Val (inr [Mock.account 1 "a"; Mock.account 2 "b"])
  /\ ~ (forall i x,
          nth_error (exchanges st (snd run)) i = Some x ->
          (S i = List.length (exchanges st (snd run))
           <-> short_or_error 1 (fetched x))).
Proof.
  cbv zeta. split; [vm_compute; reflexivity |].
  intros H. specialize (H 0%nat). vm_compute in H.
  specialize (H _ eq_refl). destruct H as [H _].
  specialize (H eq_refl). discriminate H.
Qed.

(** C3. If a fetch of GetAllAwsAccounts returns an error, the operation
    returns that error, and with it no accounts, whatever the earlier
    fetches brought. *)
Theorem GetAllAwsAccounts_fails_fast {L : Library} (fuel : nat) (s : Client)
    (perPage : Z) (st : St) (x : Exchange) (err : Error) :
  In x (exchanges st (snd (GetAllAwsAccounts fuel s perPage st))) ->
  fetched x = inl err ->
  fst (GetAllAwsAccounts fuel s perPage st) = Val (inl err)
  /\ (forall accounts,
        fst (GetAllAwsAccounts fuel s perPage st) <> Val (inr accounts)).
Proof.
  intros Hin Hx.
  assert (Hres : fst (GetAllAwsAccounts fuel s perPage st) = Val (inl err)).
  { destruct (GetAllAwsAccounts fuel s perPage st) as [r st'] eqn:Hrun.
    cbn [fst snd] in *.
    destruct (GetAllAwsAccounts_paging _ _ _ _ _ _ Hrun)
      as (exs & Hlog & [(_ & -> & _) | (req0 & _ & Hp & _)]);
      rewrite (exchanges_app _ _ _ Hlog) in Hin; [contradiction |].
    exact (Paging_error _ _ _ _ Hp x err Hin Hx). }
  split; [exact Hres |]. intros accounts. rewrite Hres. discriminate.
Qed.

(** One full page of two accounts, then a 500: the two accounts are
    dropped and the error of the second fetch is returned. *)
Lemma GetAllAwsAccounts_fails_fast_witness :
  let st := Mock.start Mock.failing 0%nat in
  let run := @GetAllAwsAccounts Mock.failing 10
               (Mock.client Mock.failing Mock.endpoint) 2 st in
  accounts_of (exchanges st (snd run))
  = [Mock.account 1 "a"; Mock.account 2 "b"]
  /\ fst run = Val (inl (Errorf "Unknown Response from CloudHealth: `500`")).
Proof.
  cbv zeta. split; [vm_compute; reflexivity |].
  refine (proj1
            (@GetAllAwsAccounts_fails_fast Mock.failing 10
               (Mock.client Mock.failing Mock.endpoint) 2
               (Mock.start Mock.failing 0%nat)
               (nth 1
                  (exchanges (Mock.start Mock.failing 0%nat)
                     (snd (@GetAllAwsAccounts Mock.failing 10
                             (Mock.client Mock.failing Mock.endpoint) 2
                             (Mock.start Mock.failing 0%nat))))
                  ({| Method := EmptyString; ReqURL := Mock.endpoint;
                      Header := []; Body := None |},
                   inl ErrAwsAccountNotFound))
               _ _ _)).
  - vm_compute. right. left. reflexivity.
  - vm_compute. reflexivity.
Defined.

(** C9. With page size 0 and a service every fetch from which succeeds
    with an empty page, GetAllAwsAccounts does not terminate: however many
    iterations it is given, it has then made that many requests and is
    still in its loop. *)
Theorem GetAllAwsAccounts_page_size_zero {L : Library} (fuel : nat)
    (s : Client) (req0 : Request URL) (st : St) :
  collection_request s = Some req0 ->
  serves_nothing (client_Timeout s) ->
  fst (GetAllAwsAccounts fuel s 0 st) = Unfinished
  /\ List.length (exchanges st (snd (GetAllAwsAccounts fuel s 0 st))) = fuel.
Proof.
  intros Hreq Hempty. rewrite (GetAllAwsAccounts_loop _ _ _ _ Hreq).
  destruct (pages_forever _ Hempty fuel req0 1 [] st)
    as (exs & st' & Hrun & Hlog & Hlen).
  rewrite Hrun. cbn [fst snd]. rewrite (exchanges_app _ _ _ Hlog). auto.
Qed.

Lemma GetAllAwsAccounts_page_size_zero_witness :
  let st := Mock.start Mock.empty 0%nat in
  let run := @GetAllAwsAccounts Mock.empty 7
               (Mock.client Mock.empty Mock.endpoint) 0 st in
  fst run = Unfinished /\ List.length (exchanges st (snd run)) = 7%nat.
Proof.
  cbv zeta.
  apply (@GetAllAwsAccounts_page_size_zero Mock.empty 7
           (Mock.client Mock.empty Mock.endpoint)
           {| Method := "GET";
              ReqURL := {| Mock.Location := "https://chapi.cloudhealthtech.com/v1/aws_accounts";
                           Mock.RawQuery := "api_key=k" |};
              Header := []; Body := None |}).
  - reflexivity.
  - intros req w. exists {| Accounts := [] |}. split; reflexivity.
Defined.

(* ================================================================== *)
(** ** The requests the operations send *)

(** The relative URL of the collection, and of the account [id]
    (the [fmt.Sprintf] of each operation). *)
Definition collection_path {L : Library} (s : Client) : string :=
  "aws_accounts?api_key=" ++ ApiKey s.

Definition resource_path {L : Library} (s : Client) (id : Z) : string :=
  "aws_accounts/" ++ itoa id ++ "?api_key=" ++ ApiKey s.

(** [req] is the request [http.NewRequest] builds for [method] and the
    relative URL [path] resolved against the endpoint of [s], with the
    headers [header] and the body [body]. *)
Definition built {L : Library} (s : Client) (method path : string)
    (header : list (string * string)) (body : option string)
    (req : Request URL) : Prop :=
  Method req = method
  /\ Header req = header
  /\ Body req = body
  /\ exists relativeURL,
       url_Parse path = inr relativeURL
       /\ url_Parse (URL_String (ResolveReference (EndpointURL s) relativeURL))
          = inr (ReqURL req).

(** An operation that sends one request of the shape [shape], once, unless
    it panics before. *)
Definition sends_once {L : Library} {A : Type} (m : M A)
    (shape : Request URL -> Prop) : Prop :=
  forall st,
    (List.length (exchanges st (snd (m st))) <= 1)%nat
    /\ (fst (m st) <> Panic -> List.length (exchanges st (snd (m st))) = 1%nat)
    /\ (forall x, In x (exchanges st (snd (m st))) -> shape (fst x)).

Ltac round_trip :=
  intros st;
  let Hrel := fresh "Hrel" in
  let Hurl := fresh "Hurl" in
  match goal with
  | |- context [url_Parse ?u] => destruct (url_Parse u) as [? | ?] eqn:Hrel
  end;
  [ left; split; reflexivity | ];
  unfold http_NewRequest;
  match goal with
  | |- context [url_Parse ?u] => destruct (url_Parse u) as [? | ?] eqn:Hurl
  end;
  [ left; split; reflexivity | ];
  right; cbv zeta;
  match goal with
  | |- context [Do ?t ?r] => exists r
  end;
  unfold bind, Do, ret;
  match goal with
  | |- context [client_Do ?t ?r ?w] => destruct (client_Do t r w) as [? ?]
  end;
  simpl; (split; [| split; reflexivity]);
  repeat (split; [reflexivity |]);
  eexists; split; [reflexivity | exact Hurl].

Lemma GetAwsAccount_sends {L : Library} (s : Client) (id : Z) :
  one_round_trip s (GetAwsAccount s id) got_result
    (built s "GET" (resource_path s id) [] None).
Proof. unfold one_round_trip, GetAwsAccount, built, resource_path. round_trip. Qed.

Lemma CreateAwsAccount_sends {L : Library} (s : Client) (account : AwsAccount) :
  one_round_trip s (CreateAwsAccount s account) (created_result account)
    (built s "POST" (collection_path s)
       [("Content-Type", "application/json")]
       (Some (render json_quote (marshal_AwsAccount account)))).
Proof.
  unfold one_round_trip, CreateAwsAccount, built, collection_path.
  cbv zeta. round_trip.
Qed.

Lemma UpdateAwsAccount_sends {L : Library} (s : Client) (account : AwsAccount) :
  one_round_trip s (UpdateAwsAccount s account) (updated_result account)
    (built s "PUT" (resource_path s (ID account))
       [("Content-Type", "application/json")]
       (Some (render json_quote (marshal_AwsAccount account)))).
Proof.
  unfold one_round_trip, UpdateAwsAccount, built, resource_path.
  cbv zeta. round_trip.
Qed.

Lemma DeleteAwsAccount_sends {L : Library} (s : Client) (id : Z) :
  one_round_trip s (DeleteAwsAccount s id) deleted_result
    (built s "DELETE" (resource_path s id) [] None).
Proof. unfold one_round_trip, DeleteAwsAccount, built, resource_path. round_trip. Qed.

Lemma one_round_trip_once {L : Library} {A : Type} (s : Client) (m : M A)
    (dispatch : Error + Response -> A) (sent : Request URL -> Prop) :
  one_round_trip s m dispatch sent -> sends_once m sent.
Proof.
  intros H st. destruct (H st) as [[Hp Hst] | (req & Hsent & Hr & Hst)];
    rewrite Hst.
  - rewrite exchanges_none. simpl. split; [lia |]. split; [congruence | tauto].
  - rewrite (@exchanges_one L). simpl. split; [lia |]. split; [reflexivity |].
    intros x [<- | []]. exact Hsent.
Qed.

(** X1. GetAwsAccount, CreateAwsAccount, UpdateAwsAccount and
    DeleteAwsAccount never retry: each sends at most one request, and
    exactly one unless it panics before sending. The request is a GET,
    POST, PUT or DELETE of the URL built from the endpoint and the
    collection path (Create) or the path of the account (the others; for
    Update the ID of the account given); Create and Update carry the
    header Content-Type: application/json and the JSON of the account,
    Get and Delete no header and no body. *)
Theorem operations_send_once {L : Library} (s : Client) (id : Z)
    (account : AwsAccount) :
  sends_once (GetAwsAccount s id)
    (built s "GET" (resource_path s id) [] None)
  /\ sends_once (CreateAwsAccount s account)
       (built s "POST" (collection_path s)
          [("Content-Type", "application/json")]
          (Some (render json_quote (marshal_AwsAccount account))))
  /\ sends_once (UpdateAwsAccount s account)
       (built s "PUT" (resource_path s (ID account))
          [("Content-Type", "application/json")]
          (Some (render json_quote (marshal_AwsAccount account))))
  /\ sends_once (DeleteAwsAccount s id)
       (built s "DELETE" (resource_path s id) [] None).
Proof.
  split; [| split; [| split]].
  - exact (one_round_trip_once _ _ _ _ (GetAwsAccount_sends s id)).
  - exact (one_round_trip_once _ _ _ _ (CreateAwsAccount_sends s account)).
  - exact (one_round_trip_once _ _ _ _ (UpdateAwsAccount_sends s account)).
  - exact (one_round_trip_once _ _ _ _ (DeleteAwsAccount_sends s id)).
Qed.

Lemma built_same_url {L : Library} (s : Client) (path : string)
    (m m' : string) (h h' : list (string * string)) (b b' : option string)
    (req req' : Request URL) :
  built s m path h b req -> built s m' path h' b' req' ->
  ReqURL req = ReqURL req'.
Proof.
  intros (_ & _ & _ & rel & Hrel & Hurl) (_ & _ & _ & rel' & Hrel' & Hurl').
  rewrite Hrel in Hrel'. injection Hrel' as <-.
  rewrite Hurl in Hurl'. injection Hurl' as ->. reflexivity.
Qed.

(** X2. UpdateAwsAccount addresses the account by the ID field of the
    account it is given: its request goes to the same URL as the requests
    of GetAwsAccount and DeleteAwsAccount for that id. CreateAwsAccount
    posts to the URL GetAllAwsAccounts starts from, the collection. *)
Theorem operations_share_urls {L : Library} (s : Client)
    (account : AwsAccount) :
  (forall st st' x y,
      In x (exchanges st (snd (UpdateAwsAccount s account st))) ->
      In y (exchanges st' (snd (GetAwsAccount s (ID account) st'))) ->
      ReqURL (fst x) = ReqURL (fst y))
  /\ (forall st st' x y,
        In x (exchanges st (snd (DeleteAwsAccount s (ID account) st))) ->
        In y (exchanges st' (snd (GetAwsAccount s (ID account) st'))) ->
        ReqURL (fst x) = ReqURL (fst y))
  /\ (forall st x req0,
        In x (exchanges st (snd (CreateAwsAccount s account st))) ->
        collection_request s = Some req0 ->
        ReqURL (fst x) = ReqURL req0).
Proof.
  split; [| split].
  - intros st st' x y Hx Hy.
    apply (one_round_trip_exchange _ _ _ _ (UpdateAwsAccount_sends s account)) in Hx.
    apply (one_round_trip_exchange _ _ _ _ (GetAwsAccount_sends s (ID account))) in Hy.
    eapply built_same_url; [apply Hx | apply Hy].
  - intros st st' x y Hx Hy.
    apply (one_round_trip_exchange _ _ _ _ (DeleteAwsAccount_sends s (ID account))) in Hx.
    apply (one_round_trip_exchange _ _ _ _ (GetAwsAccount_sends s (ID account))) in Hy.
    eapply built_same_url; [apply Hx | apply Hy].
  - intros st x req0 Hx Hreq.
    apply (one_round_trip_exchange _ _ _ _ (CreateAwsAccount_sends s account)) in Hx.
    destruct Hx as (_ & (_ & _ & _ & rel & Hrel & Hurl) & _).
    unfold collection_request, http_NewRequest in Hreq.
    unfold collection_path in Hrel. rewrite Hrel in Hreq.
    rewrite Hurl in Hreq. injection Hreq as <-. reflexivity.
Qed.

(* ================================================================== *)
(** ** More of the status dispatch *)

(** X4. An error of the transport ([client.Do] failed) is returned as it
    is by every operation; and for the four operations that read the body
    before they look at the status, an error of reading the body is
    returned as it is whatever the status of the response, 401 and 404
    included. *)
Theorem delivery_errors_returned {L : Library} (fuel : nat) (s : Client)
    (c : Call) (st : St) (x : Exchange) :
  In x (exchanges st (snd (call_error fuel s c st))) ->
  (forall err,
      snd x = inl err ->
      fst (call_error fuel s c st) = Val (Some err))
  /\ (forall resp err,
        snd x = inr resp ->
        reads_body c = true ->
        ReadAll resp = inl err ->
        fst (call_error fuel s c st) = Val (Some err)).
Proof.
  intros Hin. split.
  - intros err Hsnd.
    apply call_error_decided with (x := x); [exact Hin |].
    rewrite Hsnd. destruct c; reflexivity.
  - intros resp err Hsnd Hreads Hread.
    apply call_error_decided with (x := x); [exact Hin |].
    rewrite Hsnd.
    destruct c; try discriminate Hreads; cbn [call_result];
      unfold page_result, got_result, created_result, updated_result;
      rewrite Hread; reflexivity.
Qed.

(** A 401 whose body cannot be read: GetAwsAccount returns the error of
    the read, not the authentication error. *)
Lemma delivery_errors_returned_witness :
  let L := Mock.library
             (Mock.always
                (inr {| StatusCode := 401;
                        ReadAll := inl (LibraryError "unexpected EOF") |}))
             [] [] in
  fst (@call_error L 0 (Mock.client L Mock.endpoint) (CallGet 7)
         (Mock.start L 0%nat))
  = Val (Some (LibraryError "unexpected EOF")).
Proof.
  cbv zeta.
  set (L := Mock.library
              (Mock.always
                 (inr {| StatusCode := 401;
                         ReadAll := inl (LibraryError "unexpected EOF") |}))
              [] []).
  refine (proj2
            (@delivery_errors_returned L 0 (Mock.client L Mock.endpoint)
               (CallGet 7) (Mock.start L 0%nat)
               (nth 0
                  (exchanges (Mock.start L 0%nat)
                     (snd (@call_error L 0 (Mock.client L Mock.endpoint)
                             (CallGet 7) (Mock.start L 0%nat))))
                  ({| Method := EmptyString; ReqURL := Mock.endpoint;
                      Header := []; Body := None |},
                   inl ErrAwsAccountNotFound))
               _)
            {| StatusCode := 401;
               ReadAll := inl (LibraryError "unexpected EOF") |}
            (LibraryError "unexpected EOF") _ _ _).
  - vm_compute. left. reflexivity.
  - vm_compute. reflexivity.
  - reflexivity.
  - reflexivity.
Defined.

Lemma account_result_iff {L : Library} (s : Client)
    (m : M (Error + option AwsAccount))
    (dispatch : Error + Response -> Error + option AwsAccount)
    (sent : Request URL -> Prop) (success : Z) :
  one_round_trip s m dispatch sent ->
  (forall r account,
      dispatch r = inr account
      <-> exists resp body,
            r = inr resp /\ StatusCode resp = success
            /\ ReadAll resp = inr body
            /\ json_Unmarshal_AwsAccount body = inr account) ->
  forall st account,
    fst (m st) = Val (inr account)
    <-> exists x resp body,
          In x (exchanges st (snd (m st)))
          /\ snd x = inr resp /\ StatusCode resp = success
          /\ ReadAll resp = inr body
          /\ json_Unmarshal_AwsAccount body = inr account.
Proof.
  intros Hrun Hd st account. split.
  - intros Hres.
    destruct (Hrun st) as [[Hp _] | (req & _ & Hr & Hst)]; [congruence |].
    rewrite Hr in Hres. injection Hres as Hres.
    apply Hd in Hres. destruct Hres as (resp & body & Hx & Hrest).
    exists (req, fst (client_Do (client_Timeout s) req (world st))), resp, body.
    rewrite Hst, (@exchanges_one L). split; [left; reflexivity |].
    split; [exact Hx | exact Hrest].
  - intros (x & resp & body & Hin & Hsnd & Hrest).
    destruct (one_round_trip_exchange _ _ _ _ Hrun st x Hin) as (_ & _ & ->).
    f_equal. apply Hd. exists resp, body. split; [exact Hsnd | exact Hrest].
Qed.

Ltac account_dispatch success :=
  let r := fresh "r" in
  let a := fresh "a" in
  let resp := fresh "resp" in
  let body := fresh "body" in
  let Hread := fresh "Hread" in
  let Hs := fresh "Hs" in
  let Hdec := fresh "Hdec" in
  let H := fresh "H" in
  intros r a; split;
  [ destruct r as [? | resp]; simpl; [discriminate |];
    destruct (ReadAll resp) as [? | body] eqn:Hread; [discriminate |];
    destruct (Z.eqb_spec (StatusCode resp) success) as [Hs | Hs];
    [ destruct (json_Unmarshal_AwsAccount body) as [? | ?] eqn:Hdec;
      [discriminate |];
      intros H; injection H as <-; exists resp, body; auto
    | repeat match goal with
             | |- context [?a =? ?b] => destruct (a =? b)
             end; discriminate ]
  | intros (resp & body & -> & Hs & Hread & Hdec); simpl;
    rewrite Hread, Hs, Z.eqb_refl, Hdec; reflexivity ].

(** X5. GetAwsAccount and UpdateAwsAccount return without error exactly
    when they got a response with status 200, CreateAwsAccount exactly
    when it got one with status 201 (a 200 is an error for it), whose body
    was read and decoded without error; what they return is then what the
    decoder made of the body (no account at all for the JSON text
    [null]). *)
Theorem account_returned_iff {L : Library} (s : Client) (id : Z)
    (sent : AwsAccount) (st : St) (account : option AwsAccount) :
  (fst (GetAwsAccount s id st) = Val (inr account)
   <-> exists x resp body,
         In x (exchanges st (snd (GetAwsAccount s id st)))
         /\ snd x = inr resp /\ StatusCode resp = StatusOK
         /\ ReadAll resp = inr body
         /\ json_Unmarshal_AwsAccount body = inr account)
  /\ (fst (CreateAwsAccount s sent st) = Val (inr account)
      <-> exists x resp body,
            In x (exchanges st (snd (CreateAwsAccount s sent st)))
            /\ snd x = inr resp /\ StatusCode resp = StatusCreated
            /\ ReadAll resp = inr body
            /\ json_Unmarshal_AwsAccount body = inr account)
  /\ (fst (UpdateAwsAccount s sent st) = Val (inr account)
      <-> exists x resp body,
            In x (exchanges st (snd (UpdateAwsAccount s sent st)))
            /\ snd x = inr resp /\ StatusCode resp = StatusOK
            /\ ReadAll resp = inr body
            /\ json_Unmarshal_AwsAccount body = inr account).
Proof.
  split; [| split].
  - apply (account_result_iff s _ _ _ StatusOK
             (GetAwsAccount_sends s id)).
    unfold got_result. account_dispatch StatusOK.
  - apply (account_result_iff s _ _ _ StatusCreated
             (CreateAwsAccount_sends s sent)).
    unfold created_result. account_dispatch StatusCreated.
  - apply (account_result_iff s _ _ _ StatusOK
             (UpdateAwsAccount_sends s sent)).
    unfold updated_result. account_dispatch StatusOK.
Qed.

(* ================================================================== *)
(** ** More of the pagination loop *)

Lemma fetched_page {L : Library} (x : Exchange) (accountsPage : option AwsAccounts) :
  fetched x = inr accountsPage ->
  exists resp body,
    snd x = inr resp /\ StatusCode resp = StatusOK
    /\ ReadAll resp = inr body
    /\ json_Unmarshal_AwsAccounts body = inr accountsPage.
Proof.
  unfold fetched, page_result.
  destruct (snd x) as [err | resp]; [discriminate |].
  destruct (ReadAll resp) as [err | body] eqn:Hread; [discriminate |].
  destruct (Z.eqb_spec (StatusCode resp) StatusOK) as [Hs | Hs].
  - destruct (json_Unmarshal_AwsAccounts body) as [err | p] eqn:Hdec;
      [discriminate |].
    intros H. injection H as <-. exists resp, body.
    split; [reflexivity |]. split; [exact Hs |]. split; [exact Hread | exact Hdec].
  - destruct (StatusCode resp =? StatusUnauthorized); [discriminate |].
    destruct (StatusCode resp =? StatusNotFound); discriminate.
Qed.

(** A run that returned accounts: full pages, then one page of another
    length. *)
Lemma Paging_returned {L : Library} (perPage : Z) (accounts : list AwsAccount)
    (exs : list Exchange) r :
  Paging perPage accounts exs r ->
  forall all, r = Val (inr all) ->
    exists init x accountsPage,
      exs = (init ++ [x])%list
      /\ fetched x = inr (Some accountsPage)
      /\ Z.of_nat (List.length (Accounts accountsPage)) <> perPage
      /\ (forall y, In y init ->
            exists p, fetched y = inr (Some p)
                      /\ Z.of_nat (List.length (Accounts p)) = perPage)
      /\ Z.of_nat (List.length all)
         = Z.of_nat (List.length accounts)
           + Z.of_nat (List.length init) * perPage
           + Z.of_nat (List.length (Accounts accountsPage)).
Proof.
  induction 1 as [accounts | accounts x err Hx | accounts x Hx
                  | accounts x accountsPage Hx Hlen
                  | accounts x accountsPage exs r Hx Hlen Hp IH];
    intros all Hr; try discriminate.
  - injection Hr as <-. exists [], x, accountsPage.
    split; [reflexivity |]. split; [exact Hx |]. split; [exact Hlen |].
    split; [intros y [] |].
    rewrite length_app. simpl List.length. lia.
  - destruct (IH all Hr) as (init & z & p & -> & Hz & Hne & Hinit & Hcount).
    exists (x :: init), z, p.
    split; [reflexivity |]. split; [exact Hz |]. split; [exact Hne |].
    split; [intros y [<- | Hy]; [eauto | auto] |].
    rewrite Hcount, length_app. simpl List.length. lia.
Qed.

(** X6. When GetAllAwsAccounts returns accounts, every response it got had
    status 200 and a body that decoded to a page; all pages but the last
    held exactly [perPage] accounts; so for [k] requests it returns
    [(k - 1) * perPage] accounts plus those of the last page. *)
Theorem GetAllAwsAccounts_returned {L : Library} (fuel : nat) (s : Client)
    (perPage : Z) (st : St) (accounts : list AwsAccount) (st' : St) :
  GetAllAwsAccounts fuel s perPage st = (Val (inr accounts), st') ->
  let exs := exchanges st st' in
  (forall x, In x exs ->
     exists resp body accountsPage,
       snd x = inr resp /\ StatusCode resp = StatusOK
       /\ ReadAll resp = inr body
       /\ json_Unmarshal_AwsAccounts body = inr (Some accountsPage))
  /\ (exists init x accountsPage,
        exs = (init ++ [x])%list
        /\ fetched x = inr (Some accountsPage)
        /\ (forall y, In y init ->
              exists p, fetched y = inr (Some p)
                        /\ Z.of_nat (List.length (Accounts p)) = perPage)
        /\ Z.of_nat (List.length accounts)
           = (Z.of_nat (List.length exs) - 1) * perPage
             + Z.of_nat (List.length (Accounts accountsPage))).
Proof.
  intros Hrun. cbv zeta.
  destruct (GetAllAwsAccounts_paging _ _ _ _ _ _ Hrun)
    as (exs & Hlog & [(_ & _ & [Hc | (err & Hc)]) | (req0 & _ & Hp & _)]);
    try discriminate.
  rewrite (exchanges_app _ _ _ Hlog).
  destruct (Paging_returned _ _ _ _ Hp accounts eq_refl)
    as (init & x & p & -> & Hx & Hne & Hinit & Hcount).
  split.
  - intros y Hy. apply in_app_or in Hy. destruct Hy as [Hy | [<- | []]].
    + destruct (Hinit y Hy) as (q & Hq & _).
      destruct (fetched_page _ _ Hq) as (resp & body & H).
      exists resp, body, q. exact H.
    + destruct (fetched_page _ _ Hx) as (resp & body & H).
      exists resp, body, p. exact H.
  - exists init, x, p.
    split; [reflexivity |]. split; [exact Hx |]. split; [exact Hinit |].
    rewrite Hcount, length_app. simpl List.length. lia.
Qed.

(** Five accounts in pages of two: every response of the run was a 200. *)
Lemma GetAllAwsAccounts_returned_witness :
  let st := Mock.start Mock.paged 0%nat in
  let run := @GetAllAwsAccounts Mock.paged 10
               (Mock.client Mock.paged Mock.endpoint) 2 st in
  List.length (exchanges st (snd run)) = 3%nat
  /\ (forall x, In x (exchanges st (snd run)) ->
        exists resp body accountsPage,
          snd x = inr resp /\ StatusCode resp = StatusOK
          /\ ReadAll resp = inr body
          /\ @json_Unmarshal_AwsAccounts Mock.paged body
             = inr (Some accountsPage)).
Proof.
  cbv zeta. split; [vm_compute; reflexivity |].
  refine (proj1
            (@GetAllAwsAccounts_returned Mock.paged 10
               (Mock.client Mock.paged Mock.endpoint) 2
               (Mock.start Mock.paged 0%nat) Mock.db5 _ _)).
  vm_compute. reflexivity.
Defined.



(** X8. If a response of a fetch has status 200 and a body that decodes
    to no page at all (the pointer [accountsPage] left [nil], as for the
    JSON text [null]), GetAllAwsAccounts neither returns accounts nor an
    error: it dereferences the [nil] page and panics. *)
Theorem GetAllAwsAccounts_nil_page {L : Library} (fuel : nat) (s : Client)
    (perPage : Z) (st : St) (x : Exchange) (resp : Response)
    (body : string) :
  In x (exchanges st (snd (GetAllAwsAccounts fuel s perPage st))) ->
  snd x = inr resp ->
  StatusCode resp = StatusOK ->
  ReadAll resp = inr body ->
  json_Unmarshal_AwsAccounts body = inr None ->
  fst (GetAllAwsAccounts fuel s perPage st) = Panic.
Proof.
  intros Hin Hsnd Hstatus Hread Hdec.
  assert (Hx : fetched x = inr None).
  { unfold fetched, page_result. rewrite Hsnd, Hread, Hstatus, Hdec. reflexivity. }
  destruct (GetAllAwsAccounts fuel s perPage st) as [r st'] eqn:Hrun.
  cbn [fst snd] in *.
  destruct (GetAllAwsAccounts_paging _ _ _ _ _ _ Hrun)
    as (exs & Hlog & [(_ & -> & _) | (req0 & _ & Hp & _)]);
    rewrite (exchanges_app _ _ _ Hlog) in Hin; [contradiction |].
  exact (Paging_nil _ _ _ _ Hp x Hin Hx).
Qed.

(** A service that answers 200 with the body [null]. *)
Lemma GetAllAwsAccounts_nil_page_witness :
  let L := Mock.library (Mock.always (Mock.ok "null")) [] [] in
  fst (@GetAllAwsAccounts L 3 (Mock.client L Mock.endpoint) 10
         (Mock.start L 0%nat))
  = Panic.
Proof.
  cbv zeta.
  set (L := Mock.library (Mock.always (Mock.ok "null")) [] []).
  refine (@GetAllAwsAccounts_nil_page L 3 (Mock.client L Mock.endpoint) 10
            (Mock.start L 0%nat)
            (nth 0
               (exchanges (Mock.start L 0%nat)
                  (snd (@GetAllAwsAccounts L 3 (Mock.client L Mock.endpoint) 10
                          (Mock.start L 0%nat))))
               ({| Method := EmptyString; ReqURL := Mock.endpoint;
                   Header := []; Body := None |},
                inl ErrAwsAccountNotFound))
            {| StatusCode := 200; ReadAll := inr "null" |} "null"
            _ _ _ _ _).
  - vm_compute. left. reflexivity.
  - vm_compute. reflexivity.
  - reflexivity.
  - reflexivity.
  - reflexivity.
Defined.

Lemma set_page_keeps {L : Library} (req : Request URL) (page perPage : Z) :
  Method (set_page req page perPage) = Method req
  /\ Header (set_page req page perPage) = Header req
  /\ Body (set_page req page perPage) = Body req.
Proof. repeat split. Qed.

Lemma page_request_keeps {L : Library} (req : Request URL) (perPage : Z)
    (i : nat) :
  Method (page_request req perPage i) = Method req
  /\ Header (page_request req perPage i) = Header req
  /\ Body (page_request req perPage i) = Body req.
Proof.
  induction i as [| i IH]; cbn [page_request]; [apply set_page_keeps |].
  destruct (set_page_keeps (page_request req perPage i)
              (page_number (S i)) perPage) as (Hm & Hh & Hb).
  destruct IH as (IHm & IHh & IHb).
  rewrite Hm, Hh, Hb. auto.
Qed.

Lemma collection_request_shape {L : Library} (s : Client) (req0 : Request URL) :
  collection_request s = Some req0 ->
  Method req0 = "GET" /\ Header req0 = [] /\ Body req0 = None.
Proof.
  unfold collection_request, http_NewRequest.
  destruct (url_Parse _) as [err | rel]; [discriminate |].
  destruct (url_Parse _) as [err | u]; [discriminate |].
  intros H. injection H as <-. auto.
Qed.

(** X9. Every request of GetAllAwsAccounts is a GET without header and
    without body (only the query of its URL changes from fetch to fetch).
    If the request could be built, at least one is sent (the run being
    allowed one iteration at least), whatever the page size, zero and
    negative ones included; if it could not, none. *)
Theorem GetAllAwsAccounts_requests {L : Library} (fuel : nat) (s : Client)
    (perPage : Z) (st : St) :
  let exs := exchanges st (snd (GetAllAwsAccounts (S fuel) s perPage st)) in
  (forall x, In x exs ->
     Method (fst x) = "GET" /\ Header (fst x) = [] /\ Body (fst x) = None)
  /\ (forall req0, collection_request s = Some req0 -> exs <> [])
  /\ (collection_request s = None -> exs = []).
Proof.
  cbv zeta.
  destruct (GetAllAwsAccounts (S fuel) s perPage st) as [r st'] eqn:Hrun.
  cbn [snd].
  destruct (GetAllAwsAccounts_paging _ _ _ _ _ _ Hrun)
    as (exs & Hlog & [(Hnone & -> & _)
                     | (req0 & Hreq & Hp & Hreqs & _ & Hun)]);
    rewrite (exchanges_app _ _ _ Hlog).
  - split; [intros x [] |]. split; [congruence | reflexivity].
  - split; [| split; [| congruence]].
    + intros x Hin.
      apply (in_map fst) in Hin. rewrite Hreqs in Hin.
      apply in_map_iff in Hin. destruct Hin as (i & <- & _).
      destruct (page_request_keeps req0 perPage i) as (Hm & Hh & Hb).
      destruct (collection_request_shape _ _ Hreq) as (Hm0 & Hh0 & Hb0).
      rewrite Hm, Hh, Hb. auto.
    + intros _ _ ->. inversion Hp; subst.
      specialize (Hun eq_refl). discriminate Hun.
Qed.

(* ================================================================== *)
(** ** More of the JSON of an account *)

(** The optional fields of the authentication details, in the order of
    the struct, each with the name of its member. *)
Definition optional_fields (a : AwsAccountAuthentication)
  : list (string * string) :=
  [("access_key", AccessKey a);
   ("secret_key", SecreyKey a);
   ("assume_role_arn", AssumeRoleArn a);
   ("assume_role_external_id", AssumeRoleExternalID a)].

Definition nonempty (v : string) : bool :=
  match v with
  | EmptyString => false
  | _ => true
  end.

(** X11. The members of the JSON of the authentication details are
    [protocol] and then the optional fields that are not empty, in the
    order of the struct; no name occurs twice, in it or in the JSON of the
    account. *)
Theorem marshal_members_in_order (account : AwsAccount) :
  let a := Authentication account in
  keys (marshal_AwsAccountAuthentication a)
  = "protocol"
    :: map fst (filter (fun kv => nonempty (snd kv)) (optional_fields a))
  /\ NoDup (keys (marshal_AwsAccountAuthentication a))
  /\ NoDup (keys (marshal_AwsAccount account)).
Proof.
  cbv zeta. destruct account as [id name [protocol accessKey secretKey arn externalID]].
  cbn [Authentication].
  split; [| split].
  - destruct accessKey, secretKey, arn, externalID; reflexivity.
  - destruct accessKey, secretKey, arn, externalID; simpl;
      repeat (constructor; [simpl; intuition discriminate |]); constructor.
  - simpl. repeat (constructor; [simpl; intuition discriminate |]). constructor.
Qed.

(** A remote service every fetch from which succeeds with a page of
    exactly [perPage] accounts (one that ignores the page number, say). *)
Definition serves_full_pages {L : Library} (timeout perPage : Z) : Prop :=
  forall (req : Request URL) (w : World),
    exists accountsPage,
      page_result (fst (client_Do timeout req w)) = inr (Some accountsPage)
      /\ Z.of_nat (List.length (Accounts accountsPage)) = perPage.

Lemma pages_full_forever {L : Library} (timeout perPage : Z) :
  serves_full_pages timeout perPage ->
  forall (fuel : nat) (req : Request URL) (pageNo : Z)
         (accounts : list AwsAccount) (st : St),
    exists exs st',
      pages fuel timeout req perPage pageNo perPage accounts st
      = (Unfinished, st')
      /\ log st' = (log st ++ exs)%list
      /\ List.length exs = fuel
      /\ Z.of_nat (List.length (accounts_of exs)) = Z.of_nat fuel * perPage.
Proof.
  intros Hfull. induction fuel as [| fuel IH]; intros req pageNo accounts st.
  - exists [], st. simpl. rewrite Z.eqb_refl, app_nil_r. auto.
  - rewrite pages_step. cbv zeta.
    destruct (Hfull (set_page req pageNo perPage) (world st))
      as (accountsPage & Hpage & Hlen).
    rewrite Hpage, Hlen.
    match goal with
    | |- context [pages fuel _ ?r _ ?p _ ?a ?st1] =>
        destruct (IH r p a st1) as (exs & st' & Hrun & Hlog & Hlenx & Hacc)
    end.
    rewrite Hrun. eexists (_ :: exs), st'.
    split; [reflexivity |]. split; [| split].
    + rewrite Hlog. simpl. rewrite <- app_assoc. reflexivity.
    + simpl. rewrite Hlenx. reflexivity.
    + unfold accounts_of in *. cbn [flat_map]. unfold fetched at 1.
      cbn [snd]. rewrite Hpage, length_app. lia.
Qed.

(** X12. Termination is up to the service: if every fetch succeeds with a
    page of exactly [perPage] accounts, GetAllAwsAccounts does not
    terminate, for any page size: however many iterations it is given, it
    has then made that many requests, gathered that many times [perPage]
    accounts, and is still in its loop. *)
Theorem GetAllAwsAccounts_full_pages_forever {L : Library} (fuel : nat)
    (s : Client) (perPage : Z) (req0 : Request URL) (st : St) :
  collection_request s = Some req0 ->
  serves_full_pages (client_Timeout s) perPage ->
  let run := GetAllAwsAccounts fuel s perPage st in
  fst run = Unfinished
  /\ List.length (exchanges st (snd run)) = fuel
  /\ Z.of_nat (List.length (accounts_of (exchanges st (snd run))))
     = Z.of_nat fuel * perPage.
Proof.
  intros Hreq Hfull. cbv zeta. rewrite (GetAllAwsAccounts_loop _ _ _ _ Hreq).
  destruct (pages_full_forever _ _ Hfull fuel req0 1 [] st)
    as (exs & st' & Hrun & Hlog & Hlen & Hacc).
  rewrite Hrun. cbn [fst snd]. rewrite (exchanges_app _ _ _ Hlog). auto.
Qed.

(** A service that sends the same two accounts whatever the page, asked
    for pages of two. *)
Lemma GetAllAwsAccounts_full_pages_forever_witness :
  let st := Mock.start Mock.generous 0%nat in
  let run := @GetAllAwsAccounts Mock.generous 6
               (Mock.client Mock.generous Mock.endpoint) 2 st in
  fst run = Unfinished
  /\ List.length (exchanges st (snd run)) = 6%nat
  /\ Z.of_nat (List.length (accounts_of (exchanges st (snd run)))) = 12.
Proof.
  cbv zeta.
  apply (@GetAllAwsAccounts_full_pages_forever Mock.generous 6
           (Mock.client Mock.generous Mock.endpoint) 2
           {| Method := "GET";
              ReqURL := {| Mock.Location := "https://chapi.cloudhealthtech.com/v1/aws_accounts";
                           Mock.RawQuery := "api_key=k" |};
              Header := []; Body := None |}).
  - reflexivity.
  - intros req w.
    exists {| Accounts := [Mock.account 1 "a"; Mock.account 2 "b"] |}.
    split; reflexivity.
Defined.

(* ================================================================== *)
(** ** What a call sends first *)

(** The request [http.NewRequest] gives for [method], the relative URL
    [path] resolved against the endpoint of [s], and [body], when the
    relative URL and the resolved URL both parse. *)
Definition request_for {L : Library} (s : Client) (method path : string)
    (body : option string) : option (Request URL) :=
  match url_Parse path with
  | inl _ => None
  | inr relativeURL =>
      match http_NewRequest method
              (URL_String (ResolveReference (EndpointURL s) relativeURL))
              body with
      | inl _ => None
      | inr req => Some req
      end
  end.

(** The first request a call hands to [client.Do] (for
    [GetAllAwsAccounts] the request for page 1), when it can be built. *)
Definition first_request {L : Library} (s : Client) (c : Call)
  : option (Request URL) :=
  match c with
  | CallGetAll perPage =>
      option_map (fun req => set_page req 1 perPage)
        (request_for s "GET" (collection_path s) None)
  | CallGet id =>
      request_for s "GET" (resource_path s id) None
  | CallCreate account =>
      option_map (fun req => Header_Add req "Content-Type" "application/json")
        (request_for s "POST" (collection_path s)
           (Some (render json_quote (marshal_AwsAccount account))))
  | CallUpdate account =>
      option_map (fun req => Header_Add req "Content-Type" "application/json")
        (request_for s "PUT" (resource_path s (ID account))
           (Some (render json_quote (marshal_AwsAccount account))))
  | CallDelete id =>
      request_for s "DELETE" (resource_path s id) None
  end.

(** The state after one round trip. *)
Definition after {L : Library} (st : St) (req : Request URL)
    (r : Error + Response) (w : World) : St :=
  {| world := w; log := (log st ++ [(req, r)])%list |}.

Lemma exchanges_after {L : Library} (st : St) (req : Request URL)
    (r : Error + Response) (w : World) :
  exchanges st (after st req r w) = [(req, r)].
Proof. apply exchanges_app. reflexivity. Qed.

Ltac first_round_trip :=
  unfold first_request, request_for, http_NewRequest,
    collection_path, resource_path;
  repeat match goal with
         | |- context [url_Parse ?u] =>
             destruct (url_Parse u) as [? | ?]; [discriminate |]
         end;
  cbn [option_map];
  let H := fresh "H" in
  let HDo := fresh "HDo" in
  let Heq := fresh "Heq" in
  intros H HDo; injection H as H;
  cbv zeta; unfold bind, Do, ret;
  match type of H with
  | _ = ?rq =>
      match goal with
      | |- context [client_Do ?t ?q ?w] =>
          assert (Heq : q = rq) by exact H; rewrite Heq, HDo; reflexivity
      end
  end.

Lemma GetAwsAccount_first {L : Library} (s : Client) (id : Z) (st : St)
    (req : Request URL) (r : Error + Response) (w : World) :
  first_request s (CallGet id) = Some req ->
  client_Do (client_Timeout s) req (world st) = (r, w) ->
  GetAwsAccount s id st = (Val (got_result r), after st req r w).
Proof. unfold GetAwsAccount. first_round_trip. Qed.

Lemma CreateAwsAccount_first {L : Library} (s : Client) (account : AwsAccount)
    (st : St) (req : Request URL) (r : Error + Response) (w : World) :
  first_request s (CallCreate account) = Some req ->
  client_Do (client_Timeout s) req (world st) = (r, w) ->
  CreateAwsAccount s account st
  = (Val (created_result account r), after st req r w).
Proof. unfold CreateAwsAccount. first_round_trip. Qed.

Lemma UpdateAwsAccount_first {L : Library} (s : Client) (account : AwsAccount)
    (st : St) (req : Request URL) (r : Error + Response) (w : World) :
  first_request s (CallUpdate account) = Some req ->
  client_Do (client_Timeout s) req (world st) = (r, w) ->
  UpdateAwsAccount s account st
  = (Val (updated_result account r), after st req r w).
Proof. unfold UpdateAwsAccount. first_round_trip. Qed.

Lemma DeleteAwsAccount_first {L : Library} (s : Client) (id : Z) (st : St)
    (req : Request URL) (r : Error + Response) (w : World) :
  first_request s (CallDelete id) = Some req ->
  client_Do (client_Timeout s) req (world st) = (r, w) ->
  DeleteAwsAccount s id st = (Val (deleted_result r), after st req r w).
Proof. unfold DeleteAwsAccount. first_round_trip. Qed.

Lemma GetAllAwsAccounts_first {L : Library} (fuel : nat) (s : Client)
    (perPage : Z) (st : St) (req : Request URL) (r : Error + Response)
    (w : World) (err : Error) :
  first_request s (CallGetAll perPage) = Some req ->
  client_Do (client_Timeout s) req (world st) = (r, w) ->
  page_result r = inl err ->
  GetAllAwsAccounts (S fuel) s perPage st = (Val (inl err), after st req r w).
Proof.
  unfold GetAllAwsAccounts, first_request, request_for, http_NewRequest,
    collection_path.
  destruct (url_Parse _) as [? | rel]; [discriminate |].
  destruct (url_Parse _) as [? | u]; [discriminate |].
  cbn [option_map]. intros H HDo Hres. injection H as H.
  cbv zeta. rewrite pages_step. cbv zeta.
  rewrite H, HDo. cbn [fst snd]. rewrite Hres. reflexivity.
Qed.

(** Whatever the operation: when the first request can be built and the
    dispatch turns what came back into an error, the call sends that
    request, nothing else, and returns that error. *)
Lemma call_error_first {L : Library} (fuel : nat) (s : Client) (c : Call)
    (st : St) (req : Request URL) (r : Error + Response) (w : World)
    (err : Error) :
  first_request s c = Some req ->
  client_Do (client_Timeout s) req (world st) = (r, w) ->
  call_result c r = Some err ->
  call_error (S fuel) s c st = (Val (Some err), after st req r w).
Proof.
  intros Hreq HDo Hres.
  destruct c as [perPage | id | account | account | id];
    cbn [call_error call_result] in *.
  - assert (Hpage : page_result r = inl err)
      by (destruct (page_result r); simpl in Hres; congruence).
    unfold bind. rewrite (GetAllAwsAccounts_first _ _ _ _ _ _ _ _ Hreq HDo Hpage).
    reflexivity.
  - unfold bind. rewrite (GetAwsAccount_first _ _ _ _ _ _ Hreq HDo).
    unfold ret. rewrite Hres. reflexivity.
  - unfold bind. rewrite (CreateAwsAccount_first _ _ _ _ _ _ Hreq HDo).
    unfold ret. rewrite Hres. reflexivity.
  - unfold bind. rewrite (UpdateAwsAccount_first _ _ _ _ _ _ Hreq HDo).
    unfold ret. rewrite Hres. reflexivity.
  - rewrite (DeleteAwsAccount_first _ _ _ _ _ _ Hreq HDo).
    rewrite Hres. reflexivity.
Qed.

(* ================================================================== *)
(** ** The status dispatch *)

(** A service whose responses carry the status [code] and a body that
    cannot be read to its end. *)
Definition unreadable (code : Z) : Library :=
  Mock.library
    (Mock.always
       (inr {| StatusCode := code;
               ReadAll := inl (LibraryError "unexpected EOF") |}))
    [] [].

Ltac status_is_not H :=
  repeat match goal with
         | |- context [?a =? ?b] =>
             let Heq := fresh "Heq" in
             destruct (Z.eqb_spec a b) as [Heq | _];
             [ exfalso; apply H; rewrite Heq; simpl; auto 6 | ]
         end.

Lemma unlisted_result {L : Library} (c : Call) (resp : Response) :
  body_delivered c resp ->
  ~ In (StatusCode resp) (handled c) ->
  call_result c (inr resp) = Some (unknown_response c (StatusCode resp)).
Proof.
  unfold body_delivered. intros Hbody Hnot.
  destruct c as [perPage | id | account | account | id];
    cbn [call_result handled reads_body unknown_response] in *;
    try (destruct (Hbody eq_refl) as (responseBody & Hread));
    unfold page_result, got_result, created_result, updated_result,
      deleted_result;
    try rewrite Hread; status_is_not Hnot; reflexivity.
Qed.

Lemma unauthorized_result {L : Library} (c : Call) (resp : Response) :
  body_delivered c resp ->
  StatusCode resp = StatusUnauthorized ->
  call_result c (inr resp) = Some ErrClientAuthenticationError.
Proof.
  unfold body_delivered. intros Hbody Hstatus.
  destruct c as [perPage | id | account | account | id];
    cbn [call_result reads_body] in *;
    try (destruct (Hbody eq_refl) as (responseBody & Hread));
    unfold page_result, got_result, created_result, updated_result,
      deleted_result;
    try rewrite Hread; rewrite Hstatus; reflexivity.
Qed.

Lemma not_found_result {L : Library} (c : Call) (resp : Response) :
  In StatusNotFound (handled c) ->
  body_delivered c resp ->
  StatusCode resp = StatusNotFound ->
  call_result c (inr resp) = Some ErrAwsAccountNotFound.
Proof.
  unfold body_delivered. intros Hcase Hbody Hstatus.
  destruct c as [perPage | id | account | account | id];
    cbn [call_result reads_body handled] in *;
    try (exfalso; simpl in Hcase;
         destruct Hcase as [H | [H | [H | []]]]; discriminate H);
    try (destruct (Hbody eq_refl) as (responseBody & Hread));
    unfold page_result, got_result, deleted_result;
    try rewrite Hread; rewrite Hstatus; reflexivity.
Qed.

(** C4, as the code has it. Whatever the operation, a response whose
    status the operation has no case for (418; 200 for CreateAwsAccount)
    and whose body the operation could read, whatever it holds
    (DeleteAwsAccount does not read it), makes the call return the generic
    error, whose message holds the status code in decimal: the call sends
    its first request, and if that is the response it returns the error
    without sending another; and in any run of the call, a fetch of
    GetAllAwsAccounts after the first included, such a response decides
    the result. *)
Theorem unlisted_status_is_unknown_response {L : Library} (fuel : nat)
    (s : Client) (c : Call) (st : St) :
  (forall req resp w,
      first_request s c = Some req ->
      client_Do (client_Timeout s) req (world st) = (inr resp, w) ->
      body_delivered c resp ->
      ~ In (StatusCode resp) (handled c) ->
      call_error (S fuel) s c st
      = (Val (Some (unknown_response c (StatusCode resp))),
         after st req (inr resp) w))
  /\ (forall x resp,
        In x (exchanges st (snd (call_error fuel s c st))) ->
        snd x = inr resp ->
        body_delivered c resp ->
        ~ In (StatusCode resp) (handled c) ->
        fst (call_error fuel s c st)
        = Val (Some (unknown_response c (StatusCode resp))))
  /\ (forall code,
        exists msg,
          unknown_response c code = Errorf msg
          /\ contains msg (itoa code)).
Proof.
  split; [| split].
  - intros req resp w Hreq HDo Hbody Hnot.
    apply call_error_first; auto using unlisted_result.
  - intros x resp Hin Hsnd Hbody Hnot.
    apply call_error_decided with (x := x); [exact Hin |].
    rewrite Hsnd. apply unlisted_result; assumption.
  - intros code. apply unknown_response_message.
Qed.

(** Each of the five operations answered with 418, and CreateAwsAccount
    answered with 200 OK. *)
Lemma unlisted_status_is_unknown_response_witness :
  let L := Mock.stubborn 418 in
  let s := Mock.client L Mock.endpoint in
  let st := Mock.start L 0%nat in
  fst (@call_error L 1 s (CallGetAll 10) st)
  = Val (Some (Errorf "Unknown Response from CloudHealth: `418`"))
  /\ fst (@call_error L 1 s (CallGet 7) st)
     = Val (Some (Errorf "Unknown Response with CloudHealth: `418`"))
  /\ fst (@call_error L 1 s (CallCreate (Mock.account 0 "prod")) st)
     = Val (Some (Errorf "Unknown Response with CloudHealth: `418`"))
  /\ fst (@call_error L 1 s (CallUpdate (Mock.account 7 "prod")) st)
     = Val (Some (Errorf "Unknown Response with CloudHealth: `418`"))
  /\ fst (@call_error L 1 s (CallDelete 7) st)
     = Val (Some (Errorf "Unknown Response with CloudHealth: `418`"))
  /\ fst (@call_error (Mock.stubborn 200) 1
            (Mock.client (Mock.stubborn 200) Mock.endpoint)
            (CallCreate (Mock.account 0 "prod"))
            (Mock.start (Mock.stubborn 200) 0%nat))
     = Val (Some (Errorf "Unknown Response with CloudHealth: `200`")).
Proof.
  cbv zeta.
  refine (conj _ (conj _ (conj _ (conj _ (conj _ _)))));
    match goal with
    | |- fst (@call_error ?L _ ?s ?c ?st) = _ =>
        erewrite (proj1 (@unlisted_status_is_unknown_response L 0 s c st));
        [
        | reflexivity
        | reflexivity
        | intros _; eexists; reflexivity
        | vm_compute; intuition discriminate ];
        reflexivity
    end.
Defined.

(** C4 as stated fails on a response with status 418 whose body cannot be
    read: CreateAwsAccount returns the error of the read, not the generic
    error of the status. *)
Lemma unlisted_status_unreadable_body :
  let L := unreadable 418 in
  let run := @call_error L 1 (Mock.client L Mock.endpoint)
               (CallCreate (Mock.account 0 "prod")) (Mock.start L 0%nat) in
  map snd (exchanges (Mock.start L 0%nat) (snd run))
  = [inr {| StatusCode := 418;
            ReadAll := inl (LibraryError "unexpected EOF") |}]
  /\ fst run = Val (Some (LibraryError "unexpected EOF"))
  /\ fst run
     <> Val (Some (unknown_response (CallCreate (Mock.account 0 "prod")) 418)).
Proof.
  cbv zeta. split; [reflexivity |]. split; [reflexivity |].
  vm_compute. discriminate.
Qed.

(** C5, as the code has it. Whatever the operation, a response with status
    401 whose body the operation could read, whatever it holds
    (DeleteAwsAccount does not read it), makes the call return the
    authentication error: the call sends its first request, and if that
    is the response it returns the error without sending another; and in
    any run of the call, a fetch of GetAllAwsAccounts after the first
    included, such a response decides the result. *)
Theorem unauthorized_is_authentication_error {L : Library} (fuel : nat)
    (s : Client) (c : Call) (st : St) :
  (forall req resp w,
      first_request s c = Some req ->
      client_Do (client_Timeout s) req (world st) = (inr resp, w) ->
      body_delivered c resp ->
      StatusCode resp = StatusUnauthorized ->
      call_error (S fuel) s c st
      = (Val (Some ErrClientAuthenticationError), after st req (inr resp) w))
  /\ (forall x resp,
        In x (exchanges st (snd (call_error fuel s c st))) ->
        snd x = inr resp ->
        body_delivered c resp ->
        StatusCode resp = StatusUnauthorized ->
        fst (call_error fuel s c st) = Val (Some ErrClientAuthenticationError)).
Proof.
  split.
  - intros req resp w Hreq HDo Hbody Hstatus.
    apply call_error_first; auto using unauthorized_result.
  - intros x resp Hin Hsnd Hbody Hstatus.
    apply call_error_decided with (x := x); [exact Hin |].
    rewrite Hsnd. apply unauthorized_result; assumption.
Qed.

(** Each of the five operations answered with 401. *)
Lemma unauthorized_is_authentication_error_witness :
  let L := Mock.stubborn 401 in
  let s := Mock.client L Mock.endpoint in
  let st := Mock.start L 0%nat in
  fst (@call_error L 1 s (CallGetAll 10) st)
  = Val (Some ErrClientAuthenticationError)
  /\ fst (@call_error L 1 s (CallGet 7) st)
     = Val (Some ErrClientAuthenticationError)
  /\ fst (@call_error L 1 s (CallCreate (Mock.account 0 "prod")) st)
     = Val (Some ErrClientAuthenticationError)
  /\ fst (@call_error L 1 s (CallUpdate (Mock.account 7 "prod")) st)
     = Val (Some ErrClientAuthenticationError)
  /\ fst (@call_error L 1 s (CallDelete 7) st)
     = Val (Some ErrClientAuthenticationError).
Proof.
  cbv zeta.
  refine (conj _ (conj _ (conj _ (conj _ _))));
    match goal with
    | |- fst (@call_error ?L _ ?s ?c ?st) = _ =>
        erewrite (proj1 (@unauthorized_is_authentication_error L 0 s c st));
        [
        | reflexivity
        | reflexivity
        | intros _; eexists; reflexivity
        | reflexivity ];
        reflexivity
    end.
Defined.

(** C5 as stated fails on a response with status 401 whose body cannot be
    read: UpdateAwsAccount returns the error of the read, not the
    authentication error. *)
Lemma unauthorized_unreadable_body :
  let L := unreadable 401 in
  let run := @call_error L 1 (Mock.client L Mock.endpoint)
               (CallUpdate (Mock.account 7 "prod")) (Mock.start L 0%nat) in
  map snd (exchanges (Mock.start L 0%nat) (snd run))
  = [inr {| StatusCode := 401;
            ReadAll := inl (LibraryError "unexpected EOF") |}]
  /\ fst run = Val (Some (LibraryError "unexpected EOF"))
  /\ fst run <> Val (Some ErrClientAuthenticationError).
Proof.
  cbv zeta. split; [reflexivity |]. split; [reflexivity |].
  vm_compute. discriminate.
Qed.

(** C6, as the code has it. For the account given to CreateAwsAccount or
    UpdateAwsAccount, a response with status 422 whose body the operation
    could read makes it return an error built by [fmt.Errorf] whose
    message holds the name of that account: the operation sends its
    request, and if that is the response it returns this error. *)
Theorem unprocessable_names_the_account {L : Library} (s : Client)
    (account : AwsAccount) (st : St) :
  (forall req resp w responseBody,
      first_request s (CallCreate account) = Some req ->
      client_Do (client_Timeout s) req (world st) = (inr resp, w) ->
      ReadAll resp = inr responseBody ->
      StatusCode resp = StatusUnprocessableEntity ->
      exists msg,
        CreateAwsAccount s account st
        = (Val (inl (Errorf msg)), after st req (inr resp) w)
        /\ contains msg (Name account))
  /\ (forall req resp w responseBody,
        first_request s (CallUpdate account) = Some req ->
        client_Do (client_Timeout s) req (world st) = (inr resp, w) ->
        ReadAll resp = inr responseBody ->
        StatusCode resp = StatusUnprocessableEntity ->
        exists msg,
          UpdateAwsAccount s account st
          = (Val (inl (Errorf msg)), after st req (inr resp) w)
          /\ contains msg (Name account)).
Proof.
  split; intros req resp w responseBody Hreq HDo Hread Hstatus;
    exists ("Bad Request. Please check if a AWS Account with this name `"
            ++ Name account ++ "` already exists");
    (split; [| apply conflict_message]).
  - rewrite (CreateAwsAccount_first _ _ _ _ _ _ Hreq HDo).
    unfold created_result. rewrite Hread, Hstatus. reflexivity.
  - rewrite (UpdateAwsAccount_first _ _ _ _ _ _ Hreq HDo).
    unfold updated_result. rewrite Hread, Hstatus. reflexivity.
Qed.

(** Creating and updating an account named [prod] on a service that
    answers 422. *)
Lemma unprocessable_names_the_account_witness :
  let L := Mock.stubborn 422 in
  let s := Mock.client L Mock.endpoint in
  let st := Mock.start L 0%nat in
  (exists msg,
      fst (@CreateAwsAccount L s (Mock.account 0 "prod") st)
      = Val (inl (Errorf msg))
      /\ contains msg "prod")
  /\ (exists msg,
        fst (@UpdateAwsAccount L s (Mock.account 7 "prod") st)
        = Val (inl (Errorf msg))
        /\ contains msg "prod").
Proof.
  cbv zeta. split.
  - edestruct (proj1 (@unprocessable_names_the_account (Mock.stubborn 422)
                        (Mock.client (Mock.stubborn 422) Mock.endpoint)
                        (Mock.account 0 "prod")
                        (Mock.start (Mock.stubborn 422) 0%nat)))
      as (msg & Hrun & Hname);
      [reflexivity | reflexivity | reflexivity | reflexivity |].
    exists msg. rewrite Hrun. split; [reflexivity | exact Hname].
  - edestruct (proj2 (@unprocessable_names_the_account (Mock.stubborn 422)
                        (Mock.client (Mock.stubborn 422) Mock.endpoint)
                        (Mock.account 7 "prod")
                        (Mock.start (Mock.stubborn 422) 0%nat)))
      as (msg & Hrun & Hname);
      [reflexivity | reflexivity | reflexivity | reflexivity |].
    exists msg. rewrite Hrun. split; [reflexivity | exact Hname].
Defined.

(** C6 as stated fails on a response with status 422 whose body cannot be
    read: UpdateAwsAccount returns the error of the read, which is no
    [fmt.Errorf] error and does not name the account. *)
Lemma unprocessable_unreadable_body :
  let L := unreadable 422 in
  let st := Mock.start L 0%nat in
  let run := @UpdateAwsAccount L (Mock.client L Mock.endpoint)
               (Mock.account 7 "prod") st in
  map snd (exchanges st (snd run))
  = [inr {| StatusCode := 422;
            ReadAll := inl (LibraryError "unexpected EOF") |}]
  /\ fst run = Val (inl (LibraryError "unexpected EOF"))
  /\ (forall msg, fst run <> Val (inl (Errorf msg))).
Proof.
  cbv zeta. split; [reflexivity |]. split; [reflexivity |].
  intros msg. vm_compute. discriminate.
Qed.

(** C7. DeleteAwsAccount sends its request, and returns [nil] exactly when
    the answer is a response with status 200 or 204; on a response with
    status 404 it returns ErrAwsAccountNotFound; and its result (an error
    or [nil], never an account) is what the status code alone decides: it
    is the same whatever reading the body would give. *)
Theorem DeleteAwsAccount_by_status {L : Library} (s : Client) (id : Z)
    (st : St) (req : Request URL) (r : Error + Response) (w : World) :
  first_request s (CallDelete id) = Some req ->
  client_Do (client_Timeout s) req (world st) = (r, w) ->
  let run := DeleteAwsAccount s id st in
  exchanges st (snd run) = [(req, r)]
  /\ (fst run = Val None
      <-> exists resp,
            r = inr resp
            /\ (StatusCode resp = StatusOK \/ StatusCode resp = StatusNoContent))
  /\ (forall resp,
        r = inr resp -> StatusCode resp = StatusNotFound ->
        fst run = Val (Some ErrAwsAccountNotFound))
  /\ (forall resp body,
        r = inr resp ->
        fst run
        = Val (deleted_result
                 (inr {| StatusCode := StatusCode resp; ReadAll := body |}))).
Proof.
  intros Hreq HDo. cbv zeta.
  rewrite (DeleteAwsAccount_first _ _ _ _ _ _ Hreq HDo). cbn [fst snd].
  split; [apply exchanges_after |]. split; [| split].
  - split.
    + intros Hrun. injection Hrun as Hrun.
      destruct r as [err | resp]; [discriminate |].
      exists resp. split; [reflexivity |].
      unfold deleted_result in Hrun.
      destruct (Z.eqb_spec (StatusCode resp) StatusOK); [auto |].
      destruct (Z.eqb_spec (StatusCode resp) StatusNoContent); [auto |].
      destruct (StatusCode resp =? StatusNotFound); [discriminate |].
      destruct (StatusCode resp =? StatusUnauthorized); discriminate.
    + intros (resp & -> & Hstatus). unfold deleted_result.
      destruct Hstatus as [-> | ->]; reflexivity.
  - intros resp -> Hstatus. unfold deleted_result. rewrite Hstatus. reflexivity.
  - intros resp body ->. reflexivity.
Qed.

(** Deleting on services that answer 200, 204 with a body that cannot be
    read, 404 and 500. *)
Lemma DeleteAwsAccount_by_status_witness :
  fst (@DeleteAwsAccount (Mock.stubborn 200)
         (Mock.client (Mock.stubborn 200) Mock.endpoint) 7
         (Mock.start (Mock.stubborn 200) 0%nat))
  = Val None
  /\ fst (@DeleteAwsAccount (unreadable 204)
            (Mock.client (unreadable 204) Mock.endpoint) 7
            (Mock.start (unreadable 204) 0%nat))
     = Val None
  /\ fst (@DeleteAwsAccount (Mock.stubborn 404)
            (Mock.client (Mock.stubborn 404) Mock.endpoint) 7
            (Mock.start (Mock.stubborn 404) 0%nat))
     = Val (Some ErrAwsAccountNotFound)
  /\ fst (@DeleteAwsAccount (Mock.stubborn 500)
            (Mock.client (Mock.stubborn 500) Mock.endpoint) 7
            (Mock.start (Mock.stubborn 500) 0%nat))
     <> Val None.
Proof.
  split; [| split; [| split]].
  - edestruct (@DeleteAwsAccount_by_status (Mock.stubborn 200)
                 (Mock.client (Mock.stubborn 200) Mock.endpoint) 7
                 (Mock.start (Mock.stubborn 200) 0%nat))
      as (_ & Hiff & _); [reflexivity | reflexivity |].
    apply Hiff. eexists. split; [reflexivity | left; reflexivity].
  - edestruct (@DeleteAwsAccount_by_status (unreadable 204)
                 (Mock.client (unreadable 204) Mock.endpoint) 7
                 (Mock.start (unreadable 204) 0%nat))
      as (_ & Hiff & _); [reflexivity | reflexivity |].
    apply Hiff. eexists. split; [reflexivity | right; reflexivity].
  - edestruct (@DeleteAwsAccount_by_status (Mock.stubborn 404)
                 (Mock.client (Mock.stubborn 404) Mock.endpoint) 7
                 (Mock.start (Mock.stubborn 404) 0%nat))
      as (_ & _ & Hnf & _); [reflexivity | reflexivity |].
    eapply Hnf; reflexivity.
  - edestruct (@DeleteAwsAccount_by_status (Mock.stubborn 500)
                 (Mock.client (Mock.stubborn 500) Mock.endpoint) 7
                 (Mock.start (Mock.stubborn 500) 0%nat))
      as (_ & Hiff & _); [reflexivity | reflexivity |].
    intros Hnone. apply Hiff in Hnone.
    destruct Hnone as (resp & Hresp & Hstatus).
    injection Hresp as <-. destruct Hstatus as [H | H]; discriminate H.
Defined.

(** X3. For the three operations whose switch has a case for it
    (GetAllAwsAccounts, GetAwsAccount, DeleteAwsAccount), a response with
    status 404 whose body the operation could read, whatever it holds
    (DeleteAwsAccount does not read it), makes the call return
    ErrAwsAccountNotFound: the call sends its first request, and if that
    is the response it returns the error without sending another; and in
    any run, a fetch of GetAllAwsAccounts after the first included, such
    a response decides the result. *)
Theorem not_found_is_account_not_found {L : Library} (fuel : nat)
    (s : Client) (c : Call) (st : St) :
  In StatusNotFound (handled c) ->
  (forall req resp w,
      first_request s c = Some req ->
      client_Do (client_Timeout s) req (world st) = (inr resp, w) ->
      body_delivered c resp ->
      StatusCode resp = StatusNotFound ->
      call_error (S fuel) s c st
      = (Val (Some ErrAwsAccountNotFound), after st req (inr resp) w))
  /\ (forall x resp,
        In x (exchanges st (snd (call_error fuel s c st))) ->
        snd x = inr resp ->
        body_delivered c resp ->
        StatusCode resp = StatusNotFound ->
        fst (call_error fuel s c st) = Val (Some ErrAwsAccountNotFound)).
Proof.
  intros Hcase. split.
  - intros req resp w Hreq HDo Hbody Hstatus.
    apply call_error_first; auto using not_found_result.
  - intros x resp Hin Hsnd Hbody Hstatus.
    apply call_error_decided with (x := x); [exact Hin |].
    rewrite Hsnd. apply not_found_result; assumption.
Qed.

(** GetAllAwsAccounts, GetAwsAccount and DeleteAwsAccount answered with
    404. *)
Lemma not_found_is_account_not_found_witness :
  let L := Mock.stubborn 404 in
  let s := Mock.client L Mock.endpoint in
  let st := Mock.start L 0%nat in
  fst (@call_error L 1 s (CallGetAll 10) st) = Val (Some ErrAwsAccountNotFound)
  /\ fst (@call_error L 1 s (CallGet 7) st) = Val (Some ErrAwsAccountNotFound)
  /\ fst (@call_error L 1 s (CallDelete 7) st)
     = Val (Some ErrAwsAccountNotFound).
Proof.
  cbv zeta.
  refine (conj _ (conj _ _));
    match goal with
    | |- fst (@call_error ?L _ ?s ?c ?st) = _ =>
        erewrite (proj1 (@not_found_is_account_not_found L 0 s c st _));
        [
        | reflexivity
        | reflexivity
        | intros _; eexists; reflexivity
        | reflexivity ];
        reflexivity
    end.
  Unshelve. all: simpl; auto.
Defined.

(* ================================================================== *)
(** ** The JSON text of an account *)

(** What an optional field adds to the text of its object: nothing when
    it is empty; otherwise a comma, its name and its value, both as
    string literals. *)
Definition optional_text (quote : string -> string) (key v : string)
  : string :=
  match v with
  | EmptyString => EmptyString
  | _ => "," ++ quote key ++ ":" ++ quote v
  end.

(** A text written with apostrophes for its double quotes. *)
Fixpoint with_quotes (s : string) : string :=
  match s with
  | EmptyString => EmptyString
  | String c rest =>
      String (if Ascii.eqb c "'" then ascii_of_nat 34 else c) (with_quotes rest)
  end.

Lemma append_assoc (a b c : string) : (a ++ b) ++ c = a ++ b ++ c.
Proof. induction a as [| x a IH]; simpl; [| rewrite IH]; reflexivity. Qed.

(** The text [json.Marshal] writes for an account, member by member. *)
Lemma render_account (quote : string -> string) (account : AwsAccount) :
  render quote (marshal_AwsAccount account)
  = "{" ++ quote "id" ++ ":" ++ itoa (ID account)
    ++ "," ++ quote "name" ++ ":" ++ quote (Name account)
    ++ "," ++ quote "authentication" ++ ":"
    ++ "{" ++ quote "protocol" ++ ":"
    ++ quote (Protocol (Authentication account))
    ++ optional_text quote "access_key" (AccessKey (Authentication account))
    ++ optional_text quote "secret_key" (SecreyKey (Authentication account))
    ++ optional_text quote "assume_role_arn"
         (AssumeRoleArn (Authentication account))
    ++ optional_text quote "assume_role_external_id"
         (AssumeRoleExternalID (Authentication account))
    ++ "}" ++ "}".
Proof.
  destruct account as [id name [protocol accessKey secretKey arn externalID]].
  destruct accessKey, secretKey, arn, externalID;
    cbn [render marshal_AwsAccount marshal_AwsAccountAuthentication always
         omitempty optional_text app ID Name Authentication Protocol AccessKey
         SecreyKey AssumeRoleArn AssumeRoleExternalID];
    repeat rewrite append_assoc; cbn [append];
    repeat rewrite append_assoc; reflexivity.
Qed.

Lemma first_request_body {L : Library} (s : Client) (account : AwsAccount)
    (c : Call) (req : Request URL) :
  c = CallCreate account \/ c = CallUpdate account ->
  first_request s c = Some req ->
  Body req = Some (render json_quote (marshal_AwsAccount account)).
Proof.
  intros [-> | ->]; unfold first_request, request_for, http_NewRequest;
    destruct (url_Parse _) as [? | ?]; try discriminate;
    destruct (url_Parse _) as [? | ?]; try discriminate;
    cbn [option_map]; intros H; injection H as <-; reflexivity.
Qed.

(** C8. The body CreateAwsAccount and UpdateAwsAccount send is the JSON
    text of the account they are given: [id], [name] and [authentication]
    with its [protocol], followed by each of [access_key], [secret_key],
    [assume_role_arn] and [assume_role_external_id] that is not empty. An
    empty one adds nothing to the text, neither its name nor [null] nor an
    empty string literal; a non-empty one adds its name and its value.
    So a field is empty exactly when the object has no member of its
    name. *)
Theorem optional_fields_omitted {L : Library} (s : Client)
    (account : AwsAccount) (st : St) :
  let a := Authentication account in
  let text :=
    "{" ++ json_quote "id" ++ ":" ++ itoa (ID account)
    ++ "," ++ json_quote "name" ++ ":" ++ json_quote (Name account)
    ++ "," ++ json_quote "authentication" ++ ":"
    ++ "{" ++ json_quote "protocol" ++ ":" ++ json_quote (Protocol a)
    ++ optional_text json_quote "access_key" (AccessKey a)
    ++ optional_text json_quote "secret_key" (SecreyKey a)
    ++ optional_text json_quote "assume_role_arn" (AssumeRoleArn a)
    ++ optional_text json_quote "assume_role_external_id"
         (AssumeRoleExternalID a)
    ++ "}" ++ "}" in
  (forall key, optional_text json_quote key EmptyString = EmptyString)
  /\ (forall key v,
        v <> EmptyString ->
        optional_text json_quote key v
        = "," ++ json_quote key ++ ":" ++ json_quote v)
  /\ (forall req r w,
        first_request s (CallCreate account) = Some req ->
        client_Do (client_Timeout s) req (world st) = (r, w) ->
        Body req = Some text
        /\ exchanges st (snd (CreateAwsAccount s account st)) = [(req, r)])
  /\ (forall req r w,
        first_request s (CallUpdate account) = Some req ->
        client_Do (client_Timeout s) req (world st) = (r, w) ->
        Body req = Some text
        /\ exchanges st (snd (UpdateAwsAccount s account st)) = [(req, r)])
  /\ (forall key v,
        In (key, v) (optional_fields a) ->
        (v = EmptyString
         <-> ~ In key (keys (marshal_AwsAccountAuthentication a)))).
Proof.
  cbv zeta. split; [reflexivity |]. split; [| split; [| split]].
  - intros key v Hv. destruct v; [contradiction | reflexivity].
  - intros req r w Hreq HDo. split.
    + rewrite (first_request_body s account _ req (or_introl eq_refl) Hreq).
      rewrite render_account. reflexivity.
    + rewrite (CreateAwsAccount_first _ _ _ _ _ _ Hreq HDo).
      apply exchanges_after.
  - intros req r w Hreq HDo. split.
    + rewrite (first_request_body s account _ req (or_intror eq_refl) Hreq).
      rewrite render_account. reflexivity.
    + rewrite (UpdateAwsAccount_first _ _ _ _ _ _ Hreq HDo).
      apply exchanges_after.
  - intros key v Hin.
    destruct account as [id name [protocol accessKey secretKey arn externalID]].
    unfold optional_fields in Hin.
    cbn [Authentication AccessKey SecreyKey AssumeRoleArn
         AssumeRoleExternalID In] in *.
    destruct Hin as [H | [H | [H | [H | []]]]]; injection H as <- <-;
      destruct accessKey, secretKey, arn, externalID; simpl;
      split; intros H; try discriminate H; try reflexivity;
      try (intros Hk; intuition discriminate);
      try (exfalso; apply H; auto 8).
Qed.

(** An account with a role ARN and no keys, created and updated: only
    [protocol] and [assume_role_arn] are in the text. *)
Lemma optional_fields_omitted_witness :
  map (fun x => Body (fst x))
    (exchanges (Mock.start (Mock.stubborn 201) 0%nat)
       (snd (@CreateAwsAccount (Mock.stubborn 201)
               (Mock.client (Mock.stubborn 201) Mock.endpoint)
               (Mock.account 0 "prod")
               (Mock.start (Mock.stubborn 201) 0%nat))))
  = [Some (with_quotes
             "{'id':0,'name':'prod','authentication':{'protocol':'assume_role','assume_role_arn':'arn:aws:iam::1:role/r'}}")]
  /\ map (fun x => Body (fst x))
       (exchanges (Mock.start (Mock.stubborn 200) 0%nat)
          (snd (@UpdateAwsAccount (Mock.stubborn 200)
                  (Mock.client (Mock.stubborn 200) Mock.endpoint)
                  (Mock.account 7 "prod")
                  (Mock.start (Mock.stubborn 200) 0%nat))))
     = [Some (with_quotes
                "{'id':7,'name':'prod','authentication':{'protocol':'assume_role','assume_role_arn':'arn:aws:iam::1:role/r'}}")].
Proof.
  split.
  - destruct (@optional_fields_omitted (Mock.stubborn 201)
                (Mock.client (Mock.stubborn 201) Mock.endpoint)
                (Mock.account 0 "prod")
                (Mock.start (Mock.stubborn 201) 0%nat))
      as (_ & _ & Hcreate & _).
    edestruct Hcreate as (Hbody & Hexs); [reflexivity | reflexivity |].
    rewrite Hexs. cbn [map fst]. rewrite Hbody. reflexivity.
  - destruct (@optional_fields_omitted (Mock.stubborn 200)
                (Mock.client (Mock.stubborn 200) Mock.endpoint)
                (Mock.account 7 "prod")
                (Mock.start (Mock.stubborn 200) 0%nat))
      as (_ & _ & _ & Hupdate & _).
    edestruct Hupdate as (Hbody & Hexs); [reflexivity | reflexivity |].
    rewrite Hexs. cbn [map fst]. rewrite Hbody. reflexivity.
Defined.

(** The account whose every field is the zero value of its type. *)
Definition zero_account : AwsAccount :=
  {| ID := 0; Name := EmptyString;
     Authentication := {| Protocol := EmptyString;
                          AccessKey := EmptyString;
                          SecreyKey := EmptyString;
                          AssumeRoleArn := EmptyString;
                          AssumeRoleExternalID := EmptyString |} |}.

(** C10. The body CreateAwsAccount and UpdateAwsAccount send always starts
    with the members [id], [name] and [authentication], the latter
    starting with [protocol], each with the value of the field, whatever
    it is: the id 0 is written [0], an empty string as the literal of the
    empty string. In particular the request of CreateAwsAccount always
    carries an explicit [id]. *)
Theorem required_fields_emitted {L : Library} (s : Client)
    (account : AwsAccount) (st : St) :
  (forall req r w,
      first_request s (CallCreate account) = Some req ->
      client_Do (client_Timeout s) req (world st) = (r, w) ->
      (exists rest,
          Body req
          = Some ("{" ++ json_quote "id" ++ ":" ++ itoa (ID account)
                  ++ "," ++ json_quote "name" ++ ":"
                  ++ json_quote (Name account)
                  ++ "," ++ json_quote "authentication" ++ ":"
                  ++ "{" ++ json_quote "protocol" ++ ":"
                  ++ json_quote (Protocol (Authentication account))
                  ++ rest))
      /\ exchanges st (snd (CreateAwsAccount s account st)) = [(req, r)])
  /\ (forall req r w,
        first_request s (CallUpdate account) = Some req ->
        client_Do (client_Timeout s) req (world st) = (r, w) ->
        (exists rest,
            Body req
            = Some ("{" ++ json_quote "id" ++ ":" ++ itoa (ID account)
                    ++ "," ++ json_quote "name" ++ ":"
                    ++ json_quote (Name account)
                    ++ "," ++ json_quote "authentication" ++ ":"
                    ++ "{" ++ json_quote "protocol" ++ ":"
                    ++ json_quote (Protocol (Authentication account))
                    ++ rest))
        /\ exchanges st (snd (UpdateAwsAccount s account st)) = [(req, r)])
  /\ itoa 0 = "0"
  /\ render json_quote (marshal_AwsAccount zero_account)
     = "{" ++ json_quote "id" ++ ":0," ++ json_quote "name" ++ ":"
       ++ json_quote EmptyString ++ "," ++ json_quote "authentication"
       ++ ":{" ++ json_quote "protocol" ++ ":" ++ json_quote EmptyString
       ++ "}}"
  /\ keys (marshal_AwsAccount account) = ["id"; "name"; "authentication"]
  /\ hd_error (keys (marshal_AwsAccountAuthentication (Authentication account)))
     = Some "protocol".
Proof.
  split; [| split; [| split; [reflexivity | split; [| split; reflexivity]]]].
  - intros req r w Hreq HDo. split.
    + rewrite (first_request_body s account _ req (or_introl eq_refl) Hreq).
      rewrite render_account. eexists. reflexivity.
    + rewrite (CreateAwsAccount_first _ _ _ _ _ _ Hreq HDo).
      apply exchanges_after.
  - intros req r w Hreq HDo. split.
    + rewrite (first_request_body s account _ req (or_intror eq_refl) Hreq).
      rewrite render_account. eexists. reflexivity.
    + rewrite (UpdateAwsAccount_first _ _ _ _ _ _ Hreq HDo).
      apply exchanges_after.
  - rewrite render_account. reflexivity.
Qed.

(** The zero account, created and updated: id 0, the empty name and the
    empty protocol are all in the text. *)
Lemma required_fields_emitted_witness :
  map (fun x => Body (fst x))
    (exchanges (Mock.start (Mock.stubborn 201) 0%nat)
       (snd (@CreateAwsAccount (Mock.stubborn 201)
               (Mock.client (Mock.stubborn 201) Mock.endpoint)
               zero_account
               (Mock.start (Mock.stubborn 201) 0%nat))))
  = [Some (with_quotes "{'id':0,'name':'','authentication':{'protocol':''}}")]
  /\ map (fun x => Body (fst x))
       (exchanges (Mock.start (Mock.stubborn 200) 0%nat)
          (snd (@UpdateAwsAccount (Mock.stubborn 200)
                  (Mock.client (Mock.stubborn 200) Mock.endpoint)
                  zero_account
                  (Mock.start (Mock.stubborn 200) 0%nat))))
     = [Some (with_quotes "{'id':0,'name':'','authentication':{'protocol':''}}")].
Proof.
  split.
  - destruct (@required_fields_emitted (Mock.stubborn 201)
                (Mock.client (Mock.stubborn 201) Mock.endpoint)
                zero_account (Mock.start (Mock.stubborn 201) 0%nat))
      as (Hcreate & _).
    edestruct Hcreate as (_ & Hexs); [reflexivity | reflexivity |].
    rewrite Hexs. reflexivity.
  - destruct (@required_fields_emitted (Mock.stubborn 200)
                (Mock.client (Mock.stubborn 200) Mock.endpoint)
                zero_account (Mock.start (Mock.stubborn 200) 0%nat))
      as (_ & Hupdate & _).
    edestruct Hupdate as (_ & Hexs); [reflexivity | reflexivity |].
    rewrite Hexs. reflexivity.
Defined.
